(** * SqliteClient (sql-sqlite-expo): a shallow embedding and its properties

    The development follows [packages/sql-sqlite-expo/src/SqliteClient.ts]:
    - [Transform]: the exported casing helpers [transform.snakeToCamel] and
      [transform.camelToSnake];
    - [Runtime]: the fragment of the effect runtime the client is written
      against (exits, interruptibility, semaphores, scopes);
    - [SqliteClient]: [makeConnection], the connection methods, the two
      acquirers and [make]. *)

From Stdlib Require Import List String Ascii Bool Arith ZArith Lia.
Import ListNotations.

Set Implicit Arguments.

(* ================================================================== *)
(** * Casing transforms *)
(* ================================================================== *)

Module Transform.

Local Open Scope char_scope.
Local Open Scope string_scope.

(** Strings are Stdlib strings of 8-bit characters.  The case mappings
    are ECMAScript's on the ASCII range, which is where the identifiers
    handled here live; other characters are left as they are. *)

Definition is_upper (c : ascii) : bool :=
  (65 <=? nat_of_ascii c)%nat && (nat_of_ascii c <=? 90)%nat.

Definition is_lower (c : ascii) : bool :=
  (97 <=? nat_of_ascii c)%nat && (nat_of_ascii c <=? 122)%nat.

(** The character class [[-_]]. *)
Definition is_sep (c : ascii) : bool :=
  Ascii.eqb c "-" || Ascii.eqb c "_".

Definition is_ascii_letter (c : ascii) : bool := is_upper c || is_lower c.

Definition lower_char (c : ascii) : ascii :=
  if is_upper c then ascii_of_nat (nat_of_ascii c + 32) else c.

Definition upper_char (c : ascii) : ascii :=
  if is_lower c then ascii_of_nat (nat_of_ascii c - 32) else c.

(** [String.prototype.toLowerCase] / [toUpperCase]. *)
Fixpoint toLowerCase (s : string) : string :=
  match s with
  | EmptyString => EmptyString
  | String c s' => String (lower_char c) (toLowerCase s')
  end.

Fixpoint toUpperCase (s : string) : string :=
  match s with
  | EmptyString => EmptyString
  | String c s' => String (upper_char c) (toUpperCase s')
  end.

(** [s.replace(/[cls]/, repl)] without the [g] flag: only the leftmost
    character of the class is replaced. *)
Fixpoint replace_first (cls : ascii -> bool) (repl : string) (s : string)
  : string :=
  match s with
  | EmptyString => EmptyString
  | String c s' =>
      if cls c then repl ++ s' else String c (replace_first cls repl s')
  end.

(** [s.replace(/[cls]/g, f)]: every character of the class is replaced by
    the result of the callback on the one-character match. *)
Fixpoint replace_each (cls : ascii -> bool) (f : string -> string)
  (s : string) : string :=
  match s with
  | EmptyString => EmptyString
  | String c s' =>
      if cls c then f (String c EmptyString) ++ replace_each cls f s'
      else String c (replace_each cls f s')
  end.

(** [s.replace(/([c1][c2])/g, f)]: leftmost, non-overlapping two-character
    matches, scanned from the left; after a match the scan resumes behind
    it. *)
Fixpoint replace_pairs (c1 c2 : ascii -> bool) (f : string -> string)
  (s : string) : string :=
  match s with
  | EmptyString => EmptyString
  | String a t =>
      match t with
      | EmptyString => String a EmptyString
      | String b rest =>
          if c1 a && c2 b
          then f (String a (String b EmptyString))
                 ++ replace_pairs c1 c2 f rest
          else String a (replace_pairs c1 c2 f t)
      end
  end.

(** [snakeToCamel]: lower-case the whole string, then turn every
    separator followed by a lower-case letter into that letter in upper
    case. *)
Definition snakeToCamel (str : string) : string :=
  replace_pairs is_sep is_lower
    (fun group => toUpperCase (replace_first is_sep "" group))
    (toLowerCase str).

(** [camelToSnake]: every upper-case letter becomes an underscore
    followed by the letter in lower case. *)
Definition camelToSnake (str : string) : string :=
  replace_each is_upper (fun letter => "_" ++ toLowerCase letter) str.

(** The identifiers of the round-trip property: ASCII letters only (so no
    underscore, hyphen or digit), the first one in lower case. *)
Fixpoint all_letters (s : string) : bool :=
  match s with
  | EmptyString => true
  | String c s' => is_ascii_letter c && all_letters s'
  end.

Definition starts_lower (s : string) : bool :=
  match s with
  | EmptyString => false
  | String c _ => is_lower c
  end.

Definition camel_identifier (s : string) : bool :=
  starts_lower s && all_letters s.

End Transform.

(* ================================================================== *)
(** * The effect runtime the client is written against *)
(* ================================================================== *)

(** Modelled from the spec: the effect library ([Effect], [Scope], the
    semaphore of [Effect.makeSemaphore]) and its fiber runtime are not part
    of the source file; [SqliteClient.ts] only combines their operations
    ([Effect.succeed], [Effect.sync], [Effect.gen], [Effect.map],
    [Effect.flatMap], [Effect.zipRight], [Effect.as], [Effect.tap],
    [Effect.dieMessage], [Effect.uninterruptibleMask], [Effect.scope],
    [Effect.addFinalizer], [Scope.addFinalizer], [semaphore.take],
    [semaphore.release], [semaphore.withPermits]).  This module gives the
    operations the meaning the specification relies on, for ONE fiber: an
    effect is a function from the fiber's environment and the world to an
    outcome and a new world.

    - Synchronous JavaScript ([JS]) acts on the host state (module
      variables and the database engine) and either returns or throws.
    - A failure is either recoverable ([Fail]), a defect ([Die]) or an
      interruption.  An exception that escapes a callback run by the
      runtime is a defect.
    - Every primitive effect is one step of the fiber.  Before a step the
      fiber honours a pending interrupt if, and only if, it is
      interruptible at that point (section 5 of the specification:
      cancellation).
    - A permit store is an integer counter (section 3); [take] suspends
      the fiber while there are not enough free permits.  With a single
      fiber nobody else can release, so a wait ends either by the
      interrupt (when the waiter is interruptible and an interrupt
      arrives) or not at all ([Suspended]).
    - A bracket such as [withPermits] releases when the effect it is given
      has completed, however it completed.
    - A scope is a list of deferred actions, run most recent first when
      the scope is closed, on every exit (section 9). *)

Module Runtime.

Definition JsError := string.

Inductive JsResult (A : Type) : Type :=
| Return (a : A)
| Throw (e : JsError).
Arguments Return {A} a.
Arguments Throw {A} e.

Inductive Defect : Type :=
| RuntimeException (message : string)
| Thrown (e : JsError).

Inductive Cause : Type :=
| Fail (e : JsError)
| Die (d : Defect)
| Interrupt.

Inductive Outcome (A : Type) : Type :=
| Success (a : A)
| Failure (c : Cause)
| Suspended.
Arguments Success {A} a.
Arguments Failure {A} c.
Arguments Suspended {A}.

Definition SemRef := nat.
Definition ScopeRef := nat.

Section WithHost.

(** The state synchronous JavaScript can touch. *)
Variable Host : Type.

Definition JS (A : Type) : Type := Host -> JsResult A * Host.

(** The finalizers the client registers are of two shapes: the release of
    semaphore permits and a synchronous block. *)
Inductive Finalizer : Type :=
| FinRelease (s : SemRef) (n : nat)
| FinSync (body : JS unit).

Inductive ScopeState : Type :=
| ScopeOpen (finalizers : list Finalizer)
| ScopeClosed.

Record World : Type := mkWorld {
  host : Host;
  sems : list nat;              (* free permits, per semaphore *)
  scopes : list ScopeState;
  clock : nat;                  (* steps the fiber has taken *)
  interruptAt : option nat      (* when the interrupt arrives, if ever *)
}.

Record Env : Type := mkEnv {
  interruptible : bool;
  currentScope : ScopeRef
}.

Definition Eff (A : Type) : Type := Env -> World -> Outcome A * World.

Definition set_host (h : Host) (w : World) : World :=
  mkWorld h (sems w) (scopes w) (clock w) (interruptAt w).
Definition set_sems (l : list nat) (w : World) : World :=
  mkWorld (host w) l (scopes w) (clock w) (interruptAt w).
Definition set_scopes (l : list ScopeState) (w : World) : World :=
  mkWorld (host w) (sems w) l (clock w) (interruptAt w).
Definition set_clock (c : nat) (w : World) : World :=
  mkWorld (host w) (sems w) (scopes w) c (interruptAt w).
Definition tick (w : World) : World := set_clock (S (clock w)) w.

Definition set_interruptible (b : bool) (env : Env) : Env :=
  mkEnv b (currentScope env).
Definition set_scope (sc : ScopeRef) (env : Env) : Env :=
  mkEnv (interruptible env) sc.

(** Has the interrupt reached the fiber? *)
Definition interrupted (w : World) : bool :=
  match interruptAt w with
  | Some t => t <=? clock w
  | None => false
  end.

Fixpoint set_nth {X : Type} (i : nat) (x : X) (l : list X) : list X :=
  match l, i with
  | [], _ => []
  | _ :: l', O => x :: l'
  | y :: l', S i' => y :: set_nth i' x l'
  end.

Definition free (s : SemRef) (w : World) : nat := nth s (sems w) 0.
Definition scopeState (sc : ScopeRef) (w : World) : ScopeState :=
  nth sc (scopes w) ScopeClosed.

(** One step of the fiber. *)
Definition step {A : Type} (body : World -> Outcome A * World) : Eff A :=
  fun env w =>
    if interruptible env && interrupted w then (Failure Interrupt, w)
    else body (tick w).

(** ** Constructors and sequencing *)

Definition succeed {A : Type} (a : A) : Eff A :=
  step (fun w => (Success a, w)).

Definition die {A : Type} (d : Defect) : Eff A :=
  step (fun w => (Failure (Die d), w)).

Definition dieMessage {A : Type} (message : string) : Eff A :=
  die (RuntimeException message).

(** Modelled from the spec: [Effect.sync] of the effect library, absent
    from the source file.  The thunk runs as one step; what it throws is a
    defect. *)
Definition sync {A : Type} (thunk : JS A) : Eff A :=
  step (fun w =>
    match thunk (host w) with
    | (Return a, h) => (Success a, set_host h w)
    | (Throw e, h) => (Failure (Die (Thrown e)), set_host h w)
    end).

(** Calling a JavaScript function that returns an effect, from inside the
    runtime, and running what it returns. *)
Definition call {A : Type} (thunk : JS (Eff A)) : Eff A :=
  fun env w =>
    match thunk (host w) with
    | (Return e, h) => e env (set_host h w)
    | (Throw x, h) => (Failure (Die (Thrown x)), set_host h w)
    end.

(** A piece of JavaScript that builds the next effect, run as one step
    ([Effect.suspend], a segment of an [Effect.gen] body): the JavaScript
    runs first, then the effect it returns. *)
Definition suspend {A : Type} (thunk : JS (Eff A)) : Eff A :=
  fun env w =>
    if interruptible env && interrupted w then (Failure Interrupt, w)
    else call thunk env (tick w).

Definition flatMap {A B : Type} (self : Eff A) (f : A -> Eff B) : Eff B :=
  fun env w =>
    match self env w with
    | (Success a, w1) => f a env w1
    | (Failure c, w1) => (Failure c, w1)
    | (Suspended, w1) => (Suspended, w1)
    end.

(** [Effect.flatMap] with a callback that runs JavaScript of its own
    before it returns the next effect. *)
Definition flatMapJS {A B : Type} (self : Eff A) (f : A -> JS (Eff B))
  : Eff B :=
  fun env w =>
    match self env w with
    | (Success a, w1) => call (f a) env w1
    | (Failure c, w1) => (Failure c, w1)
    | (Suspended, w1) => (Suspended, w1)
    end.

Definition map {A B : Type} (self : Eff A) (f : A -> B) : Eff B :=
  fun env w =>
    match self env w with
    | (Success a, w1) => (Success (f a), w1)
    | (Failure c, w1) => (Failure c, w1)
    | (Suspended, w1) => (Suspended, w1)
    end.

Definition zipRight {A B : Type} (self : Eff A) (that : Eff B) : Eff B :=
  flatMap self (fun _ => that).

Definition as_ {A B : Type} (self : Eff A) (value : B) : Eff B :=
  map self (fun _ => value).

Definition tap {A B : Type} (self : Eff A) (f : A -> Eff B) : Eff A :=
  flatMap self (fun a => as_ (f a) a).

(** ** Interruptibility *)

Definition uninterruptible {A : Type} (self : Eff A) : Eff A :=
  fun env w => self (set_interruptible false env) w.

(** Modelled from the spec: [Effect.uninterruptibleMask] of the effect
    library, absent from the source file (section 9: mask cancellation,
    perform acquire and register, re-enable cancellation).  The body runs
    uninterruptibly; [restore] gives an effect back the interruptibility
    of the region around the mask. *)
Definition uninterruptibleMask {A : Type}
  (f : (forall X : Type, Eff X -> Eff X) -> Eff A) : Eff A :=
  fun env w =>
    f (fun X e env' w' => e (set_interruptible (interruptible env) env') w')
      (set_interruptible false env) w.

(** Modelled from the spec: [Effect.ensuring] of the effect library,
    absent from the source file.  The finalizer runs, uninterruptibly,
    however the effect ended (success, failure or interruption).  A fiber
    that never resumes never reaches it. *)
Definition ensuring {A B : Type} (self : Eff A) (finalizer : Eff B) : Eff A :=
  fun env w =>
    match self env w with
    | (Suspended, w1) => (Suspended, w1)
    | (o, w1) =>
        match finalizer (set_interruptible false env) w1 with
        | (Success _, w2) => (o, w2)
        | (Failure c, w2) =>
            (match o with Success _ => Failure c | _ => o end, w2)
        | (Suspended, w2) => (Suspended, w2)
        end
    end.

(** ** Semaphores *)

Definition makeSemaphore (permits : nat) : Eff SemRef :=
  step (fun w => (Success (List.length (sems w)), set_sems (sems w ++ [permits])%list w)).

(** Modelled from the spec: [semaphore.take(n)] of the effect library,
    absent from the source file (section 5: waiting for the permit is a
    suspension point; a waiter cancelled before acquiring has not
    acquired).  An interruptible waiter is woken by the interrupt, if one
    ever arrives, without having taken anything. *)
Definition take (s : SemRef) (n : nat) : Eff nat :=
  fun env w =>
    if interruptible env && interrupted w then (Failure Interrupt, w)
    else if n <=? free s w
    then (Success n, set_sems (set_nth s (free s w - n) (sems w)) (tick w))
    else
      match interruptible env, interruptAt w with
      | true, Some t => (Failure Interrupt, set_clock (Nat.max t (clock w)) w)
      | _, _ => (Suspended, w)
      end.

(** Modelled from the spec: [semaphore.release(n)] of the effect library,
    absent from the source file; it yields the number of free permits. *)
Definition release (s : SemRef) (n : nat) : Eff nat :=
  step (fun w =>
    (Success (free s w + n), set_sems (set_nth s (free s w + n) (sems w)) w)).

(** Modelled from the spec: [semaphore.withPermits(n)(self)] of the effect
    library, absent from the source file: take the permits, run [self],
    release them when [self] has completed, however it completed.  Only
    the wait and [self] keep the interruptibility of the caller. *)
Definition withPermits {A : Type} (s : SemRef) (n : nat) (self : Eff A)
  : Eff A :=
  uninterruptibleMask (fun restore =>
    flatMap (restore _ (take s n))
      (fun permits => ensuring (restore _ self) (release s permits))).

(** ** Scopes *)

(** The exit a scope is closed with; finalizers receive it. *)
Inductive ExitKind : Type :=
| ExitSuccess
| ExitFailure (c : Cause).

Definition runFinalizer (fin : Finalizer) (exit : ExitKind) : Eff unit :=
  match fin with
  | FinRelease s n => as_ (release s n) tt
  | FinSync body => sync body
  end.

(** [Effect.scope]: the scope of the environment. *)
Definition scope : Eff ScopeRef :=
  fun env => step (fun w => (Success (currentScope env), w)) env.

Definition scopeMake : Eff ScopeRef :=
  step (fun w =>
    (Success (List.length (scopes w)),
     set_scopes (scopes w ++ [ScopeOpen []])%list w)).

(** Modelled from the spec: [Scope.addFinalizer(scope, fin)] of the effect
    library, absent from the source file; on a scope that is already
    closed the finalizer runs at once. *)
Definition scopeAddFinalizer (sc : ScopeRef) (fin : Finalizer) : Eff unit :=
  fun env w =>
    match scopeState sc w with
    | ScopeOpen fs =>
        step (fun w' =>
          (Success tt, set_scopes (set_nth sc (ScopeOpen (fin :: fs)) (scopes w')) w'))
          env w
    | ScopeClosed => runFinalizer fin ExitSuccess env w
    end.

(** [Effect.addFinalizer(fin)]: on the scope of the environment. *)
Definition addFinalizer (fin : Finalizer) : Eff unit :=
  fun env => scopeAddFinalizer (currentScope env) fin env.

Fixpoint runFinalizers (fs : list Finalizer) (exit : ExitKind) : Eff unit :=
  match fs with
  | [] => fun _ w => (Success tt, w)
  | fin :: fs' =>
      fun env w =>
        match runFinalizer fin exit env w with
        | (Suspended, w1) => (Suspended, w1)
        | (o, w1) =>
            match runFinalizers fs' exit env w1 with
            | (Success _, w2) => (o, w2)
            | (o', w2) => (match o with Success _ => o' | _ => o end, w2)
            end
        end
  end.

(** Modelled from the spec: [Scope.close(scope, exit)] of the effect
    library, absent from the source file (section 9: the deferred actions
    of a scope run on every exit).  Every finalizer runs, most recent
    first, uninterruptibly; the scope is closed from then on. *)
Definition scopeClose (sc : ScopeRef) (exit : ExitKind) : Eff unit :=
  fun env w =>
    match scopeState sc w with
    | ScopeOpen fs =>
        runFinalizers fs exit (set_interruptible false env)
          (set_scopes (set_nth sc ScopeClosed (scopes w)) w)
    | ScopeClosed => (Success tt, w)
    end.

Definition exitKind {A : Type} (o : Outcome A) : ExitKind :=
  match o with
  | Failure c => ExitFailure c
  | _ => ExitSuccess
  end.

(** Modelled from the spec: [Effect.scoped(self)] of the effect library,
    absent from the source file: run [self] in a scope of its own and
    close the scope with the exit of [self]. *)
Definition scoped {A : Type} (self : Eff A) : Eff A :=
  fun env w =>
    match scopeMake (set_interruptible false env) w with
    | (Success sc, w1) =>
        match self (set_scope sc env) w1 with
        | (Suspended, w2) => (Suspended, w2)
        | (o, w2) =>
            match scopeClose sc (exitKind o) env w2 with
            | (Success _, w3) => (o, w3)
            | (Failure c, w3) =>
                (match o with Success _ => Failure c | _ => o end, w3)
            | (Suspended, w3) => (Suspended, w3)
            end
        end
    | (Failure c, w1) => (Failure c, w1)
    | (Suspended, w1) => (Suspended, w1)
    end.

End WithHost.

Arguments mkWorld {Host} _ _ _ _ _.
Arguments FinRelease {Host} s n.
Arguments ScopeClosed {Host}.
Arguments scope {Host} _ _.
Arguments scopeMake {Host} _ _.

End Runtime.

(* ================================================================== *)
(** * The client *)
(* ================================================================== *)

Module SqliteClient.

Import Runtime.

(** ** Values and rows *)

(** What a statement is given ([Statement.Primitive]) and what a row
    holds.  Numbers are integers here. *)
Inductive Value : Type :=
| VUndefined
| VNull
| VBool (b : bool)
| VNumber (z : Z)
| VString (s : string)
| VBytes (bytes : list Z).

(** A result row is a plain object: its own keys in the order
    [Object.keys] lists them, each with its value.  Properties inherited
    from [Object.prototype] are not part of a row. *)
Definition Row : Type := list (string * Value).

Definition keys (row : Row) : list string := List.map fst row.

(** [row[column]] on a plain object, for a column that is one of the row's
    keys or is not the name of a member every object inherits from
    [Object.prototype] ([constructor], [toString], ...): a key the row
    does not have then reads as [undefined]. *)
Fixpoint getProperty (row : Row) (column : string) : Value :=
  match row with
  | [] => VUndefined
  | (k, v) :: row' => if String.eqb k column then v else getProperty row' column
  end.

(** ** The engine ([expo-sqlite]) *)

(** The three synchronous calls the client makes.  Each may throw and may
    change the engine's state. *)
Record Engine : Type := mkEngine {
  EState : Type;
  Db : Type;
  openDatabaseSync : string -> EState -> JsResult Db * EState;
  closeSync : Db -> EState -> JsResult unit * EState;
  getAllSync : Db -> string -> list Value -> EState -> JsResult (list Row) * EState
}.

Record SqliteClientConfig : Type := mkConfig {
  database : string;
  transformResultNames : option (string -> string);
  transformQueryNames : option (string -> string)
}.

Section WithEngine.

Variable E : Engine.

(** The state JavaScript can touch: the module variable [dbRef]
    ([let dbRef: unknown], [undefined] until first set) and the engine. *)
Record HostState : Type := mkHost {
  dbRef : option bool;
  engine : EState E
}.

Definition set_dbRef (v : option bool) (h : HostState) : HostState :=
  mkHost v (engine h).
Definition set_engine (e : EState E) (h : HostState) : HostState :=
  mkHost (dbRef h) e.

(** The test [if (dbRef)]. *)
Definition truthy (v : option bool) : bool :=
  match v with
  | Some true => true
  | _ => false
  end.

(** The connection object of [makeConnection].  Its methods close over
    [db] and nothing else, so the object is represented by that handle and
    a method is a function of the receiver. *)
Record SqliteConnection : Type := mkConnection { db : Db E }.

Definition RowTransform : Type := list Row -> list Row.

(** [run]: the engine is called when [run] is called, not when the effect
    it returns is run; the effect is [Effect.succeed] of the rows. *)
Definition run (d : Db E) (sql : string) (params : option (list Value))
  : JS HostState (Eff HostState (list Row)) :=
  fun h =>
    let params := match params with Some ps => ps | None => [] end in
    match getAllSync E d sql params (engine h) with
    | (Return rows, e) => (Return (succeed rows), set_engine e h)
    | (Throw x, e) => (Throw x, set_engine e h)
    end.

Definition execute (this : SqliteConnection) (sql : string)
  (params : list Value) (transformRows : option RowTransform)
  : JS HostState (Eff HostState (list Row)) :=
  fun h =>
    match transformRows with
    | Some f =>
        match run (db this) sql (Some params) h with
        | (Return eff, h') => (Return (map eff f), h')
        | (Throw x, h') => (Throw x, h')
        end
    | None => run (db this) sql (Some params) h
    end.

Definition executeRaw (this : SqliteConnection) (sql : string)
  (params : list Value) : JS HostState (Eff HostState (list Row)) :=
  run (db this) sql (Some params).

(** The callback of [executeValues]: the columns are the keys of the first
    row. *)
Definition valuesOf (results : list Row) : list (list Value) :=
  match results with
  | [] => []
  | first :: _ =>
      let columns := keys first in
      List.map (fun row => List.map (fun column => getProperty row column) columns)
        results
  end.

Definition executeValues (this : SqliteConnection) (sql : string)
  (params : list Value) : JS HostState (Eff HostState (list (list Value))) :=
  fun h =>
    match run (db this) sql (Some params) h with
    | (Return eff, h') => (Return (map eff valuesOf), h')
    | (Throw x, h') => (Throw x, h')
    end.

(** [this.execute(...)]: the receiver is an object built by
    [makeConnection], whose [execute] is the one above. *)
Definition executeUnprepared (this : SqliteConnection) (sql : string)
  (params : list Value) (transformRows : option RowTransform)
  : JS HostState (Eff HostState (list Row)) :=
  execute this sql params transformRows.

(** [executeStream()] declares no parameter: whatever the caller passes is
    dropped. *)
Definition executeStream (this : SqliteConnection) (sql : string)
  (params : list Value) (transformRows : option RowTransform)
  : JS HostState (Eff HostState (list Row)) :=
  fun h => (Return (dieMessage "executeStream not implemented"), h).

(** The body of the finalizer of [makeConnection]:
    [try { db.closeSync() } catch {}; dbRef = false]. *)
Definition closeFinalizer (d : Db E) : JS HostState unit :=
  fun h =>
    let h1 := set_engine (snd (closeSync E d (engine h))) h in
    (Return tt, set_dbRef (Some false) h1).

(** [makeConnection]: the generator runs up to its first [yield*] as one
    piece of JavaScript; [undefined] is [None]. *)
Definition makeConnection (options : SqliteClientConfig)
  : Eff HostState (option SqliteConnection) :=
  suspend (fun h =>
    if truthy (dbRef h) then (Return (succeed None), h)
    else
      let h1 := set_dbRef (Some true) h in
      match openDatabaseSync E (database options) (engine h1) with
      | (Throw x, e) => (Throw x, set_engine e h1)
      | (Return d, e) =>
          (Return
             (flatMap (addFinalizer (FinSync (closeFinalizer d)))
                (fun _ => succeed (Some (mkConnection d)))),
           set_engine e h1)
      end).

(** ** The connection gate *)

Definition acquirer (semaphore : SemRef) (connection : option SqliteConnection)
  : Eff HostState (option SqliteConnection) :=
  withPermits semaphore 1 (succeed connection).

Definition transactionAcquirer (semaphore : SemRef)
  (connection : option SqliteConnection)
  : Eff HostState (option SqliteConnection) :=
  uninterruptibleMask (fun restore =>
    as_
      (zipRight
         (restore _ (take semaphore 1))
         (tap scope
            (fun sc => scopeAddFinalizer sc (FinRelease semaphore 1))))
      connection).

(** What [make] hands to [Client.make] (the generic client is not part of
    the source file; the compiler, the row transform and the span
    attributes are passed through to it and play no role here). *)
Record MakeOptions : Type := mkMakeOptions {
  mk_acquirer : Eff HostState (option SqliteConnection);
  mk_transactionAcquirer : Eff HostState (option SqliteConnection)
}.

Definition make (options : SqliteClientConfig) : Eff HostState MakeOptions :=
  flatMap (makeSemaphore 1) (fun semaphore =>
  flatMap (makeConnection options) (fun connection =>
  succeed
    (mkMakeOptions
       (acquirer semaphore connection)
       (transactionAcquirer semaphore connection)))).

(** ** How the generic client uses the gate *)

(** Modelled from the spec: the generic SQL client ([Client.make]) that
    consumes the two acquirers is not part of the source file.  Section 6
    of the specification gives its contract: the acquirer returns a
    connection for single-statement use, the transaction acquirer a
    connection scoped to the transaction's lifetime.  A statement is a
    method call on the connection the acquirer yielded (on [undefined] the
    call throws). *)
Definition withStatement {A : Type}
  (acquire : Eff HostState (option SqliteConnection))
  (statement : SqliteConnection -> JS HostState (Eff HostState A))
  : Eff HostState A :=
  flatMapJS acquire (fun connection =>
    match connection with
    | Some c => statement c
    | None => fun h => (Throw "TypeError: undefined is not an object"%string, h)
    end).

(** Modelled from the spec: a transaction is a scope of its own in which
    the transaction acquirer runs and the statements are issued (section
    4.1: the permit is held until the enclosing scope ends). *)
Definition withTransaction {A : Type}
  (acquire : Eff HostState (option SqliteConnection))
  (statement : SqliteConnection -> JS HostState (Eff HostState A))
  : Eff HostState A :=
  scoped (withStatement acquire statement).

End WithEngine.

(** ** A scripted engine, for concrete runs *)

Inductive EngineCall : Type :=
| CallOpen (path : string)
| CallClose (d : string)
| CallQuery (d : string) (sql : string) (params : list Value).

Definition usersRows : list Row :=
  [ [("id", VNumber 1); ("name", VString "ada")];
    [("name", VString "bob"); ("id", VNumber 2); ("age", VNumber 7)];
    [("id", VNumber 3)] ]%string.

(** The engine's state is the log of the calls it received.  It knows one
    table, rejects every other statement and fails to close. *)
Definition scripted : Engine :=
  mkEngine
    (fun path st => (Return path, st ++ [CallOpen path]))
    (fun d st => (Throw "close failed"%string, st ++ [CallClose d]))
    (fun d sql params st =>
       (if String.eqb sql "SELECT * FROM users" then Return usersRows
        else if String.eqb sql "SELECT * FROM empty" then Return []
        else Throw "SQLITE_ERROR: syntax error"%string,
        st ++ [CallQuery d sql params])).

Definition config0 : SqliteClientConfig := mkConfig "app.db" None None.

(** A fresh process: [dbRef] unset, no semaphore, one open scope (the
    layer's), no interrupt under way. *)
Definition world0 : World (HostState scripted) :=
  mkWorld (mkHost scripted None []) [] [ScopeOpen []] 0 None.

Definition env0 : Env := mkEnv true 0.

(** The world after [make]: the database is open, the semaphore (number 0)
    has its one permit free, the layer's scope holds the close finalizer. *)
Definition madeWorld : World (HostState scripted) :=
  snd (make (E:=scripted) config0 env0 world0).

Definition connection0 : option (SqliteConnection scripted) :=
  Some (@mkConnection scripted "app.db"%string).

(** The same world at the start of a transaction: a scope of its own
    (number 1) is open, and an interrupt is on its way that reaches the
    fiber one step later, that is, right after the permit is taken. *)
Definition transactionWorld : World (HostState scripted) :=
  mkWorld (host madeWorld) (sems madeWorld)
    (scopes madeWorld ++ [ScopeOpen []]) (clock madeWorld)
    (Some (S (clock madeWorld))).

Definition env1 : Env := mkEnv true 1.

End SqliteClient.

(* ================================================================== *)
(** * Domains and frames used to state further properties *)
(* ================================================================== *)

Module TransformDomain.

Import Transform.
Local Open Scope char_scope.

Definition is_ascii (c : ascii) : bool := (nat_of_ascii c <? 128)%nat.

Fixpoint all_chars (p : ascii -> bool) (s : string) : bool :=
  match s with
  | EmptyString => true
  | String c s' => p c && all_chars p s'
  end.

(** Strings on which the case mappings of [Transform] are ECMAScript's. *)
Definition ascii_string (s : string) : bool := all_chars is_ascii s.

(** No character of the class [[-_]]. *)
Definition no_separator (s : string) : bool :=
  all_chars (fun c => negb (is_sep c)) s.

(** No character of the class [[A-Z]]. *)
Definition no_upper (s : string) : bool :=
  all_chars (fun c => negb (is_upper c)) s.

Definition no_hyphen (s : string) : bool :=
  all_chars (fun c => negb (Ascii.eqb c "-")) s.

End TransformDomain.

Module SqliteClientFrames.

Import Runtime SqliteClient.

Section WithEngine.

Variable E : Engine.

(** An effect that, wherever it is run, changes nothing of the world but
    the engine's state and the clock, and does not wait. *)
Definition engineOnly {A : Type} (e : Eff (HostState E) A) : Prop :=
  forall (env : Env) (w : World (HostState E)),
    (exists eng c,
        snd (e env w) = set_host (set_engine eng (host w)) (set_clock c w)) /\
    fst (e env w) <> Suspended.

(** The same for a call that returns an effect: the call changes the
    engine's state only, and so does the effect it returns. *)
Definition engineOnlyCall {A : Type}
  (m : JS (HostState E) (Eff (HostState E) A)) : Prop :=
  forall h : HostState E,
    (exists eng, snd (m h) = set_engine eng h) /\
    match fst (m h) with
    | Return e => engineOnly e
    | Throw _ => True
    end.

End WithEngine.

(** The names every plain object answers to without having them as keys
    of its own: the members of [Object.prototype].  For such a name
    [row[column]] is the inherited member, not [undefined]; [getProperty]
    is [row[column]] for every other name. *)
Definition objectPrototypeNames : list string :=
  [ "constructor"; "hasOwnProperty"; "isPrototypeOf"; "propertyIsEnumerable";
    "toLocaleString"; "toString"; "valueOf"; "__proto__";
    "__defineGetter__"; "__defineSetter__"; "__lookupGetter__";
    "__lookupSetter__" ]%string.

(** A scripted engine that cannot open its database. *)
Definition unopenable : Engine :=
  mkEngine
    (fun (path : string) (st : list EngineCall) =>
       (Throw (A:=string) "SQLITE_CANTOPEN"%string, st ++ [CallOpen path]))
    (fun (d : string) (st : list EngineCall) => (Return tt, st))
    (fun (d : string) (sql : string) (params : list Value)
         (st : list EngineCall) =>
       (Return (@nil Row), st ++ [CallQuery d sql params])).

Definition unopenedWorld : World (HostState unopenable) :=
  mkWorld (mkHost unopenable None []) [] [ScopeOpen []] 0 None.

(** The world of [madeWorld] while a transaction holds the permit. *)
Definition heldWorld : World (HostState scripted) :=
  snd (transactionAcquirer 0 connection0 env1 transactionWorld).

End SqliteClientFrames.

(* ================================================================== *)
(** * Properties of the casing transforms *)
(* ================================================================== *)

Unset Implicit Arguments.

Module TransformFacts.

Import Transform.
Local Open Scope string_scope.

Example camelToSnake_fooBarBaz : camelToSnake "fooBarBaz" = "foo_bar_baz".
Proof. reflexivity. Qed.

Example snakeToCamel_foo_bar_baz : snakeToCamel "foo_bar-baz" = "fooBarBaz".
Proof. reflexivity. Qed.

Example snakeToCamel_lowers_everything : snakeToCamel "Foo_Bar" = "fooBar".
Proof. reflexivity. Qed.

Example snakeToCamel_keeps_separator_before_digit :
  snakeToCamel "a_1b" = "a_1b".
Proof. reflexivity. Qed.

(** A fact about one character is settled by running through the 256 of
    them. *)
Ltac by_cases_on_char c :=
  destruct c as [[] [] [] [] [] [] [] []]; vm_compute;
  try reflexivity; try discriminate; auto.

Lemma upper_lower_char (c : ascii) :
  is_upper c = true -> upper_char (lower_char c) = c.
Proof. by_cases_on_char c. Qed.

Lemma lower_char_is_lower (c : ascii) :
  is_upper c = true -> is_lower (lower_char c) = true.
Proof. by_cases_on_char c. Qed.

Lemma lower_char_idem (c : ascii) : lower_char (lower_char c) = lower_char c.
Proof. by_cases_on_char c. Qed.

Lemma lower_char_fixes_non_upper (c : ascii) :
  is_upper c = false -> lower_char c = c.
Proof. unfold lower_char. intros ->. reflexivity. Qed.

Lemma letter_not_sep (c : ascii) : is_ascii_letter c = true -> is_sep c = false.
Proof. by_cases_on_char c. Qed.

(** The scan of [replace_pairs] steps over a character that does not open
    a match. *)
Lemma replace_pairs_skip (c1 c2 : ascii -> bool) (f : string -> string)
  (a : ascii) (t : string) :
  c1 a = false ->
  replace_pairs c1 c2 f (String a t) = String a (replace_pairs c1 c2 f t).
Proof.
  intros Ha. destruct t as [|b rest]; simpl; [reflexivity|].
  rewrite Ha. reflexivity.
Qed.

(** [camelToSnake] of letters is already in lower case, so the
    [toLowerCase] of [snakeToCamel] leaves it alone. *)
Lemma toLowerCase_camelToSnake (s : string) :
  all_letters s = true -> toLowerCase (camelToSnake s) = camelToSnake s.
Proof.
  unfold camelToSnake.
  induction s as [|c s IH]; simpl; intros H; [reflexivity|].
  apply andb_prop in H as [_ Hs]. specialize (IH Hs).
  destruct (is_upper c) eqn:Hu; simpl in *.
  - rewrite lower_char_idem, IH. reflexivity.
  - rewrite (lower_char_fixes_non_upper c Hu), IH. reflexivity.
Qed.

(** Every ["_x"] that [camelToSnake] wrote is read back as ["X"], and
    nothing else matches. *)
Lemma replace_pairs_camelToSnake (s : string) :
  all_letters s = true ->
  replace_pairs is_sep is_lower
    (fun group => toUpperCase (replace_first is_sep "" group))
    (camelToSnake s) = s.
Proof.
  unfold camelToSnake.
  induction s as [|c s IH]; intros H; [reflexivity|].
  simpl in H. apply andb_prop in H as [Hc Hs]. specialize (IH Hs).
  cbn [replace_each].
  destruct (is_upper c) eqn:Hu.
  - cbn [append toLowerCase replace_pairs].
    replace (is_sep "_"%char) with true by reflexivity.
    rewrite (lower_char_is_lower c Hu).
    cbn [andb replace_first append toUpperCase].
    replace (is_sep "_"%char) with true by reflexivity.
    cbn [append toUpperCase].
    cbn [append] in IH.
    rewrite (upper_lower_char c Hu), IH. reflexivity.
  - rewrite replace_pairs_skip by (apply letter_not_sep; exact Hc).
    rewrite IH. reflexivity.
Qed.

(** The round trip holds for every string of ASCII letters. *)
Lemma snakeToCamel_camelToSnake_letters (s : string) :
  all_letters s = true -> snakeToCamel (camelToSnake s) = s.
Proof.
  intros H. unfold snakeToCamel.
  rewrite (toLowerCase_camelToSnake s H).
  apply replace_pairs_camelToSnake. exact H.
Qed.

(** C10.  For every camelCase identifier (ASCII letters only, hence no
    underscore, hyphen or digit, the first letter in lower case),
    [transform.camelToSnake] followed by [transform.snakeToCamel] gives
    the identifier back. *)
Theorem camel_snake_camel_roundtrip (s : string) :
  camel_identifier s = true ->
  snakeToCamel (camelToSnake s) = s.
Proof.
  unfold camel_identifier. intros H.
  apply andb_prop in H as [_ H].
  apply snakeToCamel_camelToSnake_letters. exact H.
Qed.

Lemma camel_snake_camel_roundtrip_witness :
  camel_identifier "transformResultNames" = true /\
  snakeToCamel (camelToSnake "transformResultNames") = "transformResultNames".
Proof.
  split; [reflexivity|].
  apply (camel_snake_camel_roundtrip "transformResultNames"). reflexivity.
Defined.

End TransformFacts.

(* ================================================================== *)
(** * Properties of the runtime operations *)
(* ================================================================== *)

Module RuntimeFacts.

Import Runtime.

Section Lists.

Context {X : Type}.

Lemma set_nth_length (i : nat) (x : X) (l : list X) :
  List.length (set_nth i x l) = List.length l.
Proof.
  revert i. induction l as [|y l IH]; intros [|i]; simpl; auto.
Qed.

Lemma nth_set_nth (i : nat) (x d : X) (l : list X) :
  i < List.length l -> nth i (set_nth i x l) d = x.
Proof.
  revert i. induction l as [|y l IH]; intros [|i]; simpl; intros H;
    try lia; auto.
  apply IH. lia.
Qed.

Lemma set_nth_set_nth (i : nat) (x y : X) (l : list X) :
  set_nth i x (set_nth i y l) = set_nth i x l.
Proof.
  revert i. induction l as [|z l IH]; intros [|i]; simpl; auto.
  rewrite IH. reflexivity.
Qed.

Lemma set_nth_nth (i : nat) (d : X) (l : list X) :
  set_nth i (nth i l d) l = l.
Proof.
  revert i. induction l as [|z l IH]; intros [|i]; simpl; auto.
  rewrite IH. reflexivity.
Qed.

Lemma set_nth_app_last (x y : X) (l : list X) :
  set_nth (List.length l) y (l ++ [x]) = l ++ [y].
Proof. induction l as [|z l IH]; simpl; [reflexivity|]. rewrite IH. reflexivity. Qed.

Lemma nth_app_last (x d : X) (l : list X) :
  nth (List.length l) (l ++ [x]) d = x.
Proof. induction l as [|z l IH]; simpl; auto. Qed.

Lemma nth_app_before (i : nat) (x d : X) (l : list X) :
  i < List.length l -> nth i (l ++ [x]) d = nth i l d.
Proof. intros H. apply app_nth1. exact H. Qed.

End Lists.

Lemma nth_in_range (i : nat) (l : list nat) : 1 <= nth i l 0 -> i < List.length l.
Proof.
  intros H. destruct (Nat.lt_ge_cases i (List.length l)) as [Hl|Hl]; [exact Hl|].
  rewrite nth_overflow in H by exact Hl. lia.
Qed.

Section WithHost.

Context {Host : Type}.

Lemma free_in_range (s : SemRef) (w : World Host) :
  1 <= free s w -> s < List.length (sems w).
Proof. apply nth_in_range. Qed.

(** Taking [n] permits and giving [n] back leaves the counters as they
    were. *)
Lemma take_then_release (s : SemRef) (n : nat) (l : list nat) :
  n <= nth s l 0 ->
  set_nth s (nth s (set_nth s (nth s l 0 - n) l) 0 + n) (set_nth s (nth s l 0 - n) l) = l.
Proof.
  intros H. rewrite set_nth_set_nth.
  destruct (Nat.lt_ge_cases s (List.length l)) as [Hl|Hl].
  - rewrite nth_set_nth by exact Hl.
    replace (nth s l 0 - n + n) with (nth s l 0) by lia.
    apply set_nth_nth.
  - rewrite (nth_overflow (set_nth s _ l)) by (rewrite set_nth_length; exact Hl).
    rewrite (nth_overflow l) in H by exact Hl.
    replace n with 0 by lia. simpl.
    rewrite <- (nth_overflow l 0 Hl) at 1. apply set_nth_nth.
Qed.

End WithHost.

End RuntimeFacts.

(* ================================================================== *)
(** * Properties of the client *)
(* ================================================================== *)

Module SqliteClientFacts.

Import Runtime SqliteClient RuntimeFacts.

(** Unfold the runtime operations down to the world they act on. *)
Ltac run_effects_pass :=
  unfold withStatement, withTransaction, scoped, acquirer, transactionAcquirer,
    withPermits, uninterruptibleMask, uninterruptible, zipRight, tap, as_,
    flatMapJS, flatMap, map, suspend, call, sync, take, ensuring, succeed,
    dieMessage, die, release, scope, scopeMake, scopeClose, addFinalizer,
    scopeAddFinalizer, step, interrupted, free, scopeState, exitKind, tick,
    set_host, set_sems, set_scopes, set_clock, set_interruptible, set_scope in *;
  cbn [interruptible currentScope host sems scopes clock interruptAt
       andb fst snd runFinalizers runFinalizer] in *.

Ltac run_effects := run_effects_pass; run_effects_pass.

Ltac project_world :=
  cbn [interruptible currentScope host sems scopes clock interruptAt
       andb fst snd] in *.

Section WithEngine.

Variable E : Engine.

(** ** The single-statement acquirer *)

(** Whatever its exit, the acquirer leaves the world as it found it, the
    clock apart: no permit is kept. *)
Lemma acquirer_frame (s : SemRef) (conn : option (SqliteConnection E)) (env : Env)
  (w : World (HostState E)) :
  exists c, snd (acquirer s conn env w) = set_clock c w.
Proof.
  destruct w as [h ss scs c ia], env as [i sc]. run_effects.
  destruct (1 <=? nth s ss 0) eqn:Hfree.
  - apply Nat.leb_le in Hfree.
    destruct i; [destruct ia as [t|]|]; cbn [andb];
      try destruct (t <=? c); try destruct (t <=? S c); project_world;
      try destruct (t <=? S c); project_world;
      eexists; project_world;
      rewrite ?(take_then_release s 1 ss Hfree); reflexivity.
  - destruct i; [destruct ia as [t|]|]; cbn [andb];
      try destruct (t <=? c); eexists; reflexivity.
Qed.

Lemma acquirer_exits (s : SemRef) (conn : option (SqliteConnection E)) (env : Env)
  (w : World (HostState E)) :
  fst (acquirer s conn env w) = Success conn \/
  fst (acquirer s conn env w) = Failure Interrupt \/
  fst (acquirer s conn env w) = Suspended.
Proof.
  destruct w as [h ss scs c ia], env as [i sc]. run_effects.
  destruct (1 <=? nth s ss 0);
    destruct i; [destruct ia as [t|]| |destruct ia as [t|]|]; cbn [andb];
    try destruct (t <=? c); try destruct (t <=? S c); project_world;
    try destruct (t <=? S c); project_world; auto.
Qed.

Lemma acquirer_success (s : SemRef) (conn : option (SqliteConnection E)) (env : Env)
  (w : World (HostState E)) :
  1 <= free s w -> interruptAt w = None ->
  acquirer s conn env w = (Success conn, set_clock (clock w + 3) w).
Proof.
  destruct w as [h ss scs c ia], env as [i sc]. run_effects.
  intros Hfree ->. rewrite andb_false_r.
  rewrite (proj2 (Nat.leb_le _ _) Hfree). project_world.
  rewrite andb_false_r. project_world.
  rewrite (take_then_release s 1 ss Hfree).
  repeat f_equal. lia.
Qed.

(** While the permit is taken the single-statement acquirer does not
    yield the connection: the fiber waits, or is cancelled in the wait. *)
Lemma acquirer_waits (s : SemRef) (conn : option (SqliteConnection E))
  (env : Env) (w : World (HostState E)) :
  free s w = 0 ->
  interruptible env && interrupted w = false ->
  acquirer s conn env w =
  match interruptible env, interruptAt w with
  | true, Some t => (Failure Interrupt, set_clock (Nat.max t (clock w)) w)
  | _, _ => (Suspended, w)
  end.
Proof.
  destruct w as [h ss scs c ia], env as [i sc]. run_effects.
  intros Hfree Hp. rewrite Hp, Hfree. cbn [Nat.leb].
  destruct i; [destruct ia|]; reflexivity.
Qed.

(** The caller's statement starts in the world the acquirer left. *)
Lemma withStatement_after_acquirer {A : Type} (s : SemRef) (conn : option (SqliteConnection E))
  (statement : SqliteConnection E -> JS (HostState E) (Eff (HostState E) A))
  (env : Env) (w : World (HostState E)) :
  1 <= free s w -> interruptAt w = None ->
  withStatement (acquirer s conn) statement env w =
  call (match conn with
        | Some c => statement c
        | None =>
            fun h => (Throw "TypeError: undefined is not an object"%string, h)
        end) env (set_clock (clock w + 3) w).
Proof.
  intros Hfree Hi. unfold withStatement, flatMapJS.
  rewrite (acquirer_success s conn env w Hfree Hi). reflexivity.
Qed.

(** ** The transaction acquirer *)

Lemma transactionAcquirer_success (s : SemRef) (conn : option (SqliteConnection E)) (env : Env)
  (w : World (HostState E)) (fs : list (Finalizer (HostState E))) :
  scopeState (currentScope env) w = ScopeOpen fs ->
  1 <= free s w ->
  interruptible env && interrupted w = false ->
  transactionAcquirer s conn env w =
  (Success conn,
   set_scopes
     (set_nth (currentScope env) (ScopeOpen (FinRelease s 1 :: fs)) (scopes w))
     (set_sems (set_nth s (free s w - 1) (sems w))
        (set_clock (clock w + 3) w))).
Proof.
  destruct w as [h ss scs c ia], env as [i sc]. run_effects.
  intros Hsc Hfree Hp. rewrite Hp.
  rewrite (proj2 (Nat.leb_le _ _) Hfree). project_world.
  rewrite Hsc. project_world.
  repeat f_equal. lia.
Qed.

Lemma transactionAcquirer_pending (s : SemRef) (conn : option (SqliteConnection E)) (env : Env)
  (w : World (HostState E)) :
  interruptible env && interrupted w = true ->
  transactionAcquirer s conn env w = (Failure Interrupt, w).
Proof.
  destruct w as [h ss scs c ia], env as [i sc]. run_effects.
  intros ->. reflexivity.
Qed.

Lemma transactionAcquirer_waits (s : SemRef) (conn : option (SqliteConnection E)) (env : Env)
  (w : World (HostState E)) :
  free s w = 0 ->
  interruptible env && interrupted w = false ->
  transactionAcquirer s conn env w =
  match interruptible env, interruptAt w with
  | true, Some t => (Failure Interrupt, set_clock (Nat.max t (clock w)) w)
  | _, _ => (Suspended, w)
  end.
Proof.
  destruct w as [h ss scs c ia], env as [i sc]. run_effects.
  intros Hfree Hp. rewrite Hp, Hfree. cbn [Nat.leb].
  destruct i; [destruct ia|]; reflexivity.
Qed.

Lemma acquirer_cancelled_on_entry (s : SemRef)
  (conn : option (SqliteConnection E)) (env : Env) (w : World (HostState E)) :
  interruptible env && interrupted w = true ->
  acquirer s conn env w = (Failure Interrupt, w).
Proof.
  destruct w as [h ss scs c ia], env as [i sc]. run_effects.
  intros ->. reflexivity.
Qed.

(** With a permit free, the acquirer is the yield of the connection run
    in the world where the permit has been taken, followed by the
    release. *)
Lemma acquirer_takes_then_yields (s : SemRef)
  (conn : option (SqliteConnection E)) (env : Env) (w : World (HostState E)) :
  1 <= free s w ->
  interruptible env && interrupted w = false ->
  acquirer s conn env w =
  ensuring
    (fun env' w' => succeed conn (set_interruptible (interruptible env) env') w')
    (release s 1)
    (set_interruptible false env)
    (set_sems (set_nth s (free s w - 1) (sems w)) (tick w)).
Proof.
  intros Hfree Hp. destruct env as [i sc].
  unfold acquirer, withPermits, uninterruptibleMask, flatMap, take.
  cbn [interruptible set_interruptible currentScope] in *.
  rewrite Hp. rewrite (proj2 (Nat.leb_le _ _) Hfree). reflexivity.
Qed.

(** C2 (as amended).  The single-statement acquirer takes the single
    permit, waiting while it is taken (a waiter that is cancelled has
    taken nothing), yields the connection while it holds the permit, and
    gives the permit back when the acquirer itself completes, however it
    exits: nothing of the world but the clock has changed when it returns.
    The caller's statement therefore starts after the release, with the
    permit free. *)
Theorem acquirer_releases_when_connection_is_yielded (s : SemRef)
  (conn : option (SqliteConnection E)) (env : Env) (w : World (HostState E)) :
  (exists c, snd (acquirer s conn env w) = set_clock c w) /\
  (fst (acquirer s conn env w) = Success conn \/
   fst (acquirer s conn env w) = Failure Interrupt \/
   fst (acquirer s conn env w) = Suspended) /\
  (1 <= free s w -> interruptAt w = None ->
   acquirer s conn env w = (Success conn, set_clock (clock w + 3) w) /\
   free s (set_clock (clock w + 3) w) = free s w /\
   forall (statement :
             SqliteConnection E -> JS (HostState E) (Eff (HostState E) (list Row))),
     withStatement (acquirer s conn) statement env w =
     call (match conn with
           | Some c => statement c
           | None =>
               fun h =>
                 (Throw "TypeError: undefined is not an object"%string, h)
           end) env (set_clock (clock w + 3) w)) /\
  (free s w = 0 -> interruptible env && interrupted w = false ->
   acquirer s conn env w =
   match interruptible env, interruptAt w with
   | true, Some t => (Failure Interrupt, set_clock (Nat.max t (clock w)) w)
   | _, _ => (Suspended, w)
   end) /\
  (interruptible env && interrupted w = true ->
   acquirer s conn env w = (Failure Interrupt, w)) /\
  (1 <= free s w -> interruptible env && interrupted w = false ->
   acquirer s conn env w =
   ensuring
     (fun env' w' => succeed conn (set_interruptible (interruptible env) env') w')
     (release s 1)
     (set_interruptible false env)
     (set_sems (set_nth s (free s w - 1) (sems w)) (tick w)) /\
   free s (set_sems (set_nth s (free s w - 1) (sems w)) (tick w)) =
   free s w - 1).
Proof.
  split; [apply acquirer_frame|].
  split; [apply acquirer_exits|].
  split.
  { intros Hfree Hi. split; [apply acquirer_success; assumption|].
    split; [reflexivity|].
    intros statement. apply withStatement_after_acquirer; assumption. }
  split; [apply acquirer_waits|].
  split; [apply acquirer_cancelled_on_entry|].
  intros Hfree Hp. split; [apply acquirer_takes_then_yields; assumption|].
  unfold free. cbn [sems set_sems tick set_clock].
  apply nth_set_nth. apply (free_in_range s w Hfree).
Qed.

(** Closing a scope that is closed already does nothing. *)
Lemma scopeClose_closed (sc : ScopeRef) (exit : ExitKind) (env : Env)
  (w : World (HostState E)) :
  scopeState sc w = ScopeClosed -> scopeClose sc exit env w = (Success tt, w).
Proof. intros H. unfold scopeClose. rewrite H. reflexivity. Qed.

(** A release registered last is what the closing scope runs first. *)
Lemma runFinalizers_release_first (s : SemRef) (n : nat)
  (fs : list (Finalizer (HostState E))) (exit : ExitKind) (env : Env)
  (w : World (HostState E)) :
  interruptible env = false ->
  runFinalizers (FinRelease s n :: fs) exit env w =
  runFinalizers fs exit env
    (set_sems (set_nth s (free s w + n) (sems w)) (tick w)).
Proof.
  intros Hi. cbn [runFinalizers runFinalizer].
  unfold as_, map, release, step. rewrite Hi. cbn [andb].
  destruct (runFinalizers fs exit env _) as [[[]| |] w3]; reflexivity.
Qed.

(** C3.  In an open scope and with the permit free, the transaction
    acquirer either is cancelled before it takes anything (the interrupt
    was already there when it started to wait) or takes the permit and
    registers exactly one release on the scope, as a unit that an
    interrupt arriving after the wait cannot split; the permit stays taken
    until the scope is closed, and closing the scope, on every exit, gives
    it back before the scope's older finalizers run.  While the permit is
    not free the wait itself is cancellable. *)
Theorem transactionAcquirer_holds_permit_until_scope_closes (s : SemRef)
  (conn : option (SqliteConnection E)) (env : Env) (w : World (HostState E))
  (fs : list (Finalizer (HostState E))) :
  scopeState (currentScope env) w = ScopeOpen fs ->
  (1 <= free s w -> interruptible env && interrupted w = false ->
   exists w1,
     transactionAcquirer s conn env w = (Success conn, w1) /\
     free s w1 = free s w - 1 /\
     scopeState (currentScope env) w1 = ScopeOpen (FinRelease s 1 :: fs) /\
     host w1 = host w /\
     forall (exit : ExitKind) (env' : Env),
     exists w2,
       scopeClose (currentScope env) exit env' w1 =
       runFinalizers fs exit (set_interruptible false env') w2 /\
       sems w2 = sems w /\
       host w2 = host w /\
       scopeState (currentScope env) w2 = ScopeClosed) /\
  (interruptible env && interrupted w = true ->
   transactionAcquirer s conn env w = (Failure Interrupt, w)) /\
  (free s w = 0 -> interruptible env && interrupted w = false ->
   transactionAcquirer s conn env w =
   match interruptible env, interruptAt w with
   | true, Some t => (Failure Interrupt, set_clock (Nat.max t (clock w)) w)
   | _, _ => (Suspended, w)
   end).
Proof.
  intros Hsc.
  split; [|split; [apply transactionAcquirer_pending
                  |apply transactionAcquirer_waits]].
  intros Hfree Hp.
  pose proof (free_in_range s w Hfree) as Hs.
  assert (Hscl : currentScope env < List.length (scopes w)).
  { unfold scopeState in Hsc.
    destruct (Nat.lt_ge_cases (currentScope env) (List.length (scopes w)))
      as [Hl|Hl]; [exact Hl|].
    rewrite nth_overflow in Hsc by exact Hl. discriminate. }
  eexists. split; [apply (transactionAcquirer_success s conn env w fs Hsc Hfree Hp)|].
  destruct w as [h ss scs c ia], env as [i sc]. run_effects.
  split; [apply nth_set_nth; exact Hs|].
  split; [apply nth_set_nth; exact Hscl|].
  split; [reflexivity|].
  intros exit env'.
  rewrite (nth_set_nth sc _ _ scs Hscl). project_world.
  eexists. split; [apply runFinalizers_release_first; reflexivity|].
  run_effects. split; [|split; [reflexivity|]].
  - rewrite (nth_set_nth s _ _ ss Hs), set_nth_set_nth.
    replace (nth s ss 0 - 1 + 1) with (nth s ss 0) by lia.
    apply set_nth_nth.
  - rewrite set_nth_set_nth. apply nth_set_nth. exact Hscl.
Qed.

(** ** The connection's methods *)

(** C4.  [executeStream], whatever it is given, returns at once (the
    engine is not called) an effect that never succeeds with rows, never
    fails with a recoverable error and never waits: a fiber that runs it
    dies with the defect ["executeStream not implemented"]. *)
Theorem executeStream_always_dies (this : SqliteConnection E) (sql : string)
  (params : list Value) (transformRows : option RowTransform)
  (h : HostState E) (env : Env) (w : World (HostState E)) :
  exists eff,
    executeStream this sql params transformRows h = (Return eff, h) /\
    (forall rows, fst (eff env w) <> Success rows) /\
    (forall e, fst (eff env w) <> Failure (Fail e)) /\
    fst (eff env w) <> Suspended /\
    (interruptible env && interrupted w = false ->
     eff env w =
     (Failure (Die (RuntimeException "executeStream not implemented")),
      tick w)).
Proof.
  eexists. split; [reflexivity|].
  unfold dieMessage, die, step.
  destruct (interruptible env && interrupted w); cbn [fst];
    repeat split; intros; try discriminate; reflexivity.
Qed.

(** C8.  [executeUnprepared] is [execute]: the same call on the engine,
    the same effect or the same exception, and the same run. *)
Theorem executeUnprepared_same_as_execute (this : SqliteConnection E)
  (sql : string) (params : list Value) (transformRows : option RowTransform)
  (h : HostState E) :
  executeUnprepared this sql params transformRows h =
  execute this sql params transformRows h /\
  forall (env : Env) (w : World (HostState E)),
    call (executeUnprepared this sql params transformRows) env w =
    call (execute this sql params transformRows) env w.
Proof. split; reflexivity. Qed.

(** The values of a row's own keys, read in the row's key order, are the
    row's values. *)
Lemma getProperty_own_keys (row : Row) :
  NoDup (keys row) -> List.map (getProperty row) (keys row) = List.map snd row.
Proof.
  induction row as [|[k v] row IH]; intros Hnd; [reflexivity|].
  inversion Hnd as [|k' ks Hnotin Hnd']; subst.
  cbn [keys List.map fst snd getProperty]. rewrite String.eqb_refl. f_equal.
  rewrite <- (IH Hnd'). apply map_ext_in.
  intros column Hin. destruct (String.eqb k column) eqn:Heq; [|reflexivity].
  apply String.eqb_eq in Heq. subst. contradiction.
Qed.

Lemma valuesOf_nth (first : Row) (rest : list Row) (i : nat) (row : Row) :
  nth_error (first :: rest) i = Some row ->
  nth_error (valuesOf (first :: rest)) i =
  Some (List.map (getProperty row) (keys first)).
Proof.
  intros H. unfold valuesOf.
  rewrite nth_error_map, H. reflexivity.
Qed.

(** C9.  When the engine returns the rows, [executeValues] succeeds with
    [valuesOf] of them: nothing for no row, otherwise one tuple per row,
    each listing the row's values at the keys of the FIRST row, in that
    order, [undefined] where the row has no such key. *)
Theorem executeValues_columns_from_first_row (this : SqliteConnection E)
  (sql : string) (params : list Value) (h : HostState E)
  (rows : list Row) (e' : EState E) :
  getAllSync E (db this) sql params (engine h) = (Return rows, e') ->
  exists eff,
    executeValues this sql params h = (Return eff, set_engine e' h) /\
    (forall (env : Env) (w : World (HostState E)),
       interruptible env && interrupted w = false ->
       eff env w = (Success (valuesOf rows), tick w)) /\
    (rows = [] -> valuesOf rows = []) /\
    (forall first rest, rows = first :: rest ->
       List.length (valuesOf rows) = List.length rows /\
       (forall i row, nth_error rows i = Some row ->
          nth_error (valuesOf rows) i =
          Some (List.map (getProperty row) (keys first))) /\
       (NoDup (keys first) ->
        nth_error (valuesOf rows) 0 = Some (List.map snd first))).
Proof.
  intros Hq. unfold executeValues, run. rewrite Hq.
  eexists. split; [reflexivity|].
  split; [|split].
  - intros env w Hp. unfold map, succeed, step. rewrite Hp. reflexivity.
  - intros ->. reflexivity.
  - intros first rest ->. split; [|split].
    + unfold valuesOf. apply length_map.
    + intros i row. apply valuesOf_nth.
    + intros Hnd. rewrite (valuesOf_nth first rest 0 first eq_refl).
      rewrite (getProperty_own_keys first Hnd). reflexivity.
Qed.

(** ** Opening and closing *)

Lemma makeConnection_live (options : SqliteClientConfig) (env : Env)
  (w : World (HostState E)) :
  truthy (dbRef (host w)) = true ->
  makeConnection options env w =
  if interruptible env && interrupted w then (Failure Interrupt, w)
  else if interruptible env && interrupted (tick w)
       then (Failure Interrupt, tick w)
       else (Success None, tick (tick w)).
Proof.
  intros Hlive. unfold makeConnection, suspend, call.
  destruct (interruptible env && interrupted w); [reflexivity|].
  cbn [host tick set_clock]. rewrite Hlive.
  unfold succeed, step.
  destruct w as [h ss scs c ia], env as [i sc]; reflexivity.
Qed.

(** C6.  While a handle is live ([dbRef] is truthy) a further
    [makeConnection] touches neither the engine nor [dbRef] nor any scope
    (only the fiber's clock moves), raises nothing, and yields
    [undefined], not a handle; [make] then builds its two acquirers around
    that [undefined]. *)
Theorem makeConnection_skips_second_open (options : SqliteClientConfig)
  (env : Env) (w : World (HostState E)) :
  truthy (dbRef (host w)) = true ->
  (exists c, snd (makeConnection options env w) = set_clock c w) /\
  (forall e, fst (makeConnection options env w) <> Failure (Fail e)) /\
  (forall d, fst (makeConnection options env w) <> Failure (Die d)) /\
  (interruptAt w = None ->
   makeConnection options env w = (Success None, set_clock (clock w + 2) w) /\
   exists w',
     make options env w =
     (Success
        (mkMakeOptions
           (acquirer (List.length (sems w)) None)
           (transactionAcquirer (List.length (sems w)) None)), w') /\
     host w' = host w /\ scopes w' = scopes w).
Proof.
  intros Hlive. rewrite (makeConnection_live options env w Hlive).
  split; [|split; [|split]].
  - destruct w as [h ss scs c ia].
    destruct (interruptible env && interrupted _);
      [|destruct (interruptible env && interrupted _)];
      eexists; reflexivity.
  - intros e.
    destruct (interruptible env && interrupted w);
      [|destruct (interruptible env && interrupted (tick w))]; discriminate.
  - intros d.
    destruct (interruptible env && interrupted w);
      [|destruct (interruptible env && interrupted (tick w))]; discriminate.
  - intros Hi.
    assert (Hq : forall w0 : World (HostState E),
               interruptAt w0 = None ->
               interruptible env && interrupted w0 = false).
    { intros w0 H0. unfold interrupted. rewrite H0. apply andb_false_r. }
    split.
    + rewrite (Hq w Hi), (Hq (tick w)) by (destruct w; exact Hi).
      destruct w as [h ss scs c ia]. unfold tick, set_clock.
      cbn [host sems scopes clock interruptAt]. repeat f_equal. lia.
    + unfold make, flatMap, makeSemaphore, step. rewrite (Hq w Hi).
      rewrite makeConnection_live by (destruct w; exact Hlive).
      rewrite !Hq by (destruct w; exact Hi).
      unfold succeed, step. rewrite Hq by (destruct w; exact Hi).
      eexists. split; [reflexivity|]. destruct w; split; reflexivity.
Qed.

Lemma makeConnection_opens (options : SqliteClientConfig) (env : Env)
  (w : World (HostState E)) (fs : list (Finalizer (HostState E)))
  (d : Db E) (e : EState E) :
  truthy (dbRef (host w)) = false ->
  interruptAt w = None ->
  scopeState (currentScope env) w = ScopeOpen fs ->
  openDatabaseSync E (database options) (engine (host w)) = (Return d, e) ->
  makeConnection options env w =
  (Success (Some (mkConnection E d)),
   set_scopes
     (set_nth (currentScope env)
        (ScopeOpen (FinSync (closeFinalizer d) :: fs)) (scopes w))
     (set_host (mkHost E (Some true) e) (set_clock (clock w + 3) w))).
Proof.
  destruct w as [h ss scs c ia], env as [i sc].
  unfold makeConnection. run_effects.
  intros Hlive -> Hsc Hopen. rewrite !andb_false_r, Hlive.
  cbn [set_dbRef set_engine engine dbRef]. rewrite Hopen. project_world.
  rewrite Hsc. project_world. rewrite ?andb_false_r. project_world.
  rewrite ?andb_false_r. unfold set_engine, set_dbRef. cbn [dbRef engine].
  repeat f_equal. lia.
Qed.

(** C7.  The close finalizer returns normally whether or not [closeSync]
    throws, and leaves [dbRef] at [false]; run a second time it does the
    same.  As an effect, run the way scopes run finalizers, it succeeds
    both times.  With [dbRef] at [false] the next [makeConnection] opens
    the database again. *)
Theorem closeFinalizer_never_raises_and_clears_dbRef (d : Db E)
  (h : HostState E) (exit : ExitKind) (env : Env) (w : World (HostState E)) :
  let h1 := snd (closeFinalizer d h) in
  let r1 := uninterruptible (runFinalizer (FinSync (closeFinalizer d)) exit)
              env w in
  let r2 := uninterruptible (runFinalizer (FinSync (closeFinalizer d)) exit)
              env (snd r1) in
  fst (closeFinalizer d h) = Return tt /\
  dbRef h1 = Some false /\
  fst (closeFinalizer d h1) = Return tt /\
  dbRef (snd (closeFinalizer d h1)) = Some false /\
  fst r1 = Success tt /\ dbRef (host (snd r1)) = Some false /\
  fst r2 = Success tt /\ dbRef (host (snd r2)) = Some false /\
  (forall (options : SqliteClientConfig) (w' : World (HostState E))
          (fs : list (Finalizer (HostState E))) (d' : Db E) (e' : EState E),
     host w' = h1 -> interruptAt w' = None ->
     scopeState (currentScope env) w' = ScopeOpen fs ->
     openDatabaseSync E (database options) (engine h1) = (Return d', e') ->
     exists w2,
       makeConnection options env w' = (Success (Some (mkConnection E d')), w2) /\
       host w2 = mkHost E (Some true) e').
Proof.
  cbv zeta. repeat split.
  intros options w' fs d' e' Hh Hi Hsc Hopen.
  rewrite <- Hh in Hopen.
  eexists. split.
  - apply (makeConnection_opens options env w' fs d' e'); try assumption.
    rewrite Hh. reflexivity.
  - reflexivity.
Qed.


(** ** Engine errors *)

Lemma execute_throws (this : SqliteConnection E) (sql : string)
  (params : list Value) (transformRows : option RowTransform)
  (h : HostState E) (x : JsError) (e' : EState E) :
  getAllSync E (db this) sql params (engine h) = (Throw x, e') ->
  execute this sql params transformRows h = (Throw x, set_engine e' h).
Proof.
  intros Hq. unfold execute, run. rewrite Hq.
  destruct transformRows; reflexivity.
Qed.

(** C5 (as amended).  When the engine call fails, every method that
    queries the engine throws the engine's exception at the call, after
    that one call on the engine (no retry).  A fiber that issues the
    statement through the single-statement acquirer ends with a defect
    that carries the exception, not with a recoverable error, and no
    permit is lost on that path: the permit had been given back before the
    statement was issued, and permits and scopes are as before. *)
Theorem engine_error_is_thrown_and_permit_not_lost (this : SqliteConnection E)
  (sql : string) (params : list Value) (transformRows : option RowTransform)
  (h : HostState E) (x : JsError) (e' : EState E) :
  getAllSync E (db this) sql params (engine h) = (Throw x, e') ->
  execute this sql params transformRows h = (Throw x, set_engine e' h) /\
  executeRaw this sql params h = (Throw x, set_engine e' h) /\
  executeValues this sql params h = (Throw x, set_engine e' h) /\
  executeUnprepared this sql params transformRows h =
  (Throw x, set_engine e' h) /\
  (forall (s : SemRef) (env : Env) (w : World (HostState E)),
     host w = h -> 1 <= free s w -> interruptAt w = None ->
     exists w1,
       withStatement (acquirer s (Some this))
         (fun c => execute c sql params transformRows) env w =
       (Failure (Die (Thrown x)), w1) /\
       sems w1 = sems w /\ scopes w1 = scopes w /\
       host w1 = set_engine e' h).
Proof.
  intros Hq.
  pose proof (execute_throws this sql params transformRows h x e' Hq) as Hx.
  split; [exact Hx|].
  split; [unfold executeRaw, run; rewrite Hq; reflexivity|].
  split; [unfold executeValues, run; rewrite Hq; reflexivity|].
  split; [exact Hx|].
  intros s env w Hh Hfree Hi.
  rewrite (withStatement_after_acquirer s (Some this) _ env w Hfree Hi).
  unfold call. cbn [host set_clock]. rewrite Hh, Hx.
  eexists. split; [reflexivity|]. repeat split.
Qed.

End WithEngine.


(** ** Concrete runs on the scripted engine *)

Local Open Scope string_scope.

Example make_opens_once :
  engine (host madeWorld) = [CallOpen "app.db"] /\
  dbRef (host madeWorld) = Some true /\
  sems madeWorld = [1].
Proof. repeat split. Qed.

(** During a transaction another caller's statement waits at the gate. *)
Example statement_waits_during_transaction :
  fst (withStatement (acquirer 0 connection0)
         (fun c => execute c "SELECT * FROM users" [] None)
         (mkEnv false 0)
         (snd (transactionAcquirer 0 connection0 env1 transactionWorld))) =
  Suspended.
Proof. reflexivity. Qed.

(** A waiter that is cancelled has taken nothing. *)
Example cancelled_waiter_takes_nothing :
  let w := snd (transactionAcquirer 0 connection0 env1 transactionWorld) in
  fst (transactionAcquirer 0 connection0 env0 w) = Failure Interrupt /\
  sems (snd (transactionAcquirer 0 connection0 env0 w)) = sems w /\
  scopes (snd (transactionAcquirer 0 connection0 env0 w)) = scopes w.
Proof. repeat split. Qed.

Example valuesOf_usersRows :
  valuesOf usersRows =
  [ [VNumber 1; VString "ada"];
    [VNumber 2; VString "bob"];
    [VNumber 3; VUndefined] ].
Proof. reflexivity. Qed.

(** C2, as stated, fails: when the acquirer has yielded the connection,
    that is before the caller's statement is issued, the permit is free
    again, not held. *)
Lemma acquirer_holds_permit_during_statement_counterexample :
  ~ (forall w1,
       acquirer 0 connection0 env0 madeWorld = (Success connection0, w1) ->
       free 0 w1 = 0).
Proof.
  intros H.
  specialize (H (set_clock (clock madeWorld + 3) madeWorld) eq_refl).
  vm_compute in H. discriminate H.
Qed.

Lemma acquirer_releases_when_connection_is_yielded_witness :
  1 <= free 0 madeWorld /\
  interruptAt madeWorld = None /\
  acquirer 0 connection0 env0 madeWorld =
  (Success connection0, set_clock (clock madeWorld + 3) madeWorld) /\
  free 0 (set_clock (clock madeWorld + 3) madeWorld) = free 0 madeWorld /\
  free 0 SqliteClientFrames.heldWorld = 0 /\
  interruptible (mkEnv false 0) && interrupted SqliteClientFrames.heldWorld =
  false /\
  acquirer 0 connection0 (mkEnv false 0) SqliteClientFrames.heldWorld =
  (Suspended, SqliteClientFrames.heldWorld).
Proof.
  assert (H1 : 1 <= free 0 madeWorld) by (vm_compute; lia).
  assert (H2 : interruptAt madeWorld = None) by reflexivity.
  assert (H3 : free 0 SqliteClientFrames.heldWorld = 0) by reflexivity.
  assert (H4 : interruptible (mkEnv false 0) &&
               interrupted SqliteClientFrames.heldWorld = false)
    by reflexivity.
  destruct (acquirer_releases_when_connection_is_yielded
              scripted 0 connection0 env0 madeWorld) as (_ & _ & H & _).
  destruct (H H1 H2) as (Ha & Hb & _).
  destruct (acquirer_releases_when_connection_is_yielded
              scripted 0 connection0 (mkEnv false 0)
              SqliteClientFrames.heldWorld) as (_ & _ & _ & Hw & _).
  split; [exact H1|]. split; [exact H2|]. split; [exact Ha|].
  split; [exact Hb|]. split; [exact H3|]. split; [exact H4|].
  exact (Hw H3 H4).
Defined.

Lemma transactionAcquirer_holds_permit_until_scope_closes_witness :
  scopeState (currentScope env1) transactionWorld = ScopeOpen [] /\
  1 <= free 0 transactionWorld /\
  interruptible env1 && interrupted transactionWorld = false /\
  exists w1,
    transactionAcquirer 0 connection0 env1 transactionWorld =
    (Success connection0, w1) /\
    free 0 w1 = free 0 transactionWorld - 1 /\
    scopeState (currentScope env1) w1 = ScopeOpen [FinRelease 0 1] /\
    forall (exit : ExitKind) (env' : Env),
    exists w2,
      scopeClose (currentScope env1) exit env' w1 = (Success tt, w2) /\
      sems w2 = sems transactionWorld /\
      host w2 = host transactionWorld /\
      scopeState (currentScope env1) w2 = ScopeClosed.
Proof.
  assert (H0 : scopeState (currentScope env1) transactionWorld = ScopeOpen [])
    by reflexivity.
  assert (H1 : 1 <= free 0 transactionWorld) by (vm_compute; lia).
  assert (H2 : interruptible env1 && interrupted transactionWorld = false)
    by reflexivity.
  destruct (transactionAcquirer_holds_permit_until_scope_closes
              scripted 0 connection0 env1 transactionWorld [] H0) as (H & _).
  destruct (H H1 H2) as (w1 & Ha & Hb & Hc & _ & Hd).
  split; [exact H0|]. split; [exact H1|]. split; [exact H2|].
  exists w1.
  split; [exact Ha|]. split; [exact Hb|]. split; [exact Hc|].
  intros exit env'. destruct (Hd exit env') as (w2 & He & Hf).
  exists w2. split; assumption.
Defined.

Lemma executeStream_always_dies_witness :
  interruptible env0 && interrupted madeWorld = false /\
  exists eff,
    executeStream (mkConnection scripted "app.db"%string)
      "SELECT * FROM users" [] None (host madeWorld) =
    (Return eff, host madeWorld) /\
    eff env0 madeWorld =
    (Failure (Die (RuntimeException "executeStream not implemented")),
     tick madeWorld).
Proof.
  split; [reflexivity|].
  destruct (executeStream_always_dies scripted
              (mkConnection scripted "app.db"%string)
              "SELECT * FROM users" [] None (host madeWorld) env0 madeWorld)
    as (eff & Ha & _ & _ & _ & Hb).
  exists eff. split; [exact Ha|]. apply Hb. reflexivity.
Defined.

(** C5, as stated, fails: a statement the engine rejects does not end in a
    recoverable error but in a defect. *)
Lemma engine_error_is_recoverable_counterexample :
  fst (withStatement (acquirer 0 connection0)
         (fun c => execute c "SELEC * FROM users" [] None) env0 madeWorld) =
  Failure (Die (Thrown "SQLITE_ERROR: syntax error")) /\
  ~ (exists e,
       fst (withStatement (acquirer 0 connection0)
              (fun c => execute c "SELEC * FROM users" [] None)
              env0 madeWorld) =
       Failure (Fail e)).
Proof.
  split; [reflexivity|].
  intros [e H]. vm_compute in H. discriminate H.
Qed.

Lemma engine_error_is_thrown_and_permit_not_lost_witness :
  getAllSync scripted "app.db"%string "SELEC * FROM users" []
    (engine (host madeWorld)) =
  (Throw "SQLITE_ERROR: syntax error"%string,
   [CallOpen "app.db"; CallQuery "app.db" "SELEC * FROM users" []]) /\
  execute (mkConnection scripted "app.db"%string) "SELEC * FROM users" [] None
    (host madeWorld) =
  (Throw "SQLITE_ERROR: syntax error"%string,
   set_engine (E:=scripted)
     [CallOpen "app.db"; CallQuery "app.db" "SELEC * FROM users" []]
     (host madeWorld)) /\
  exists w1,
    withStatement (acquirer 0 connection0)
      (fun c => execute c "SELEC * FROM users" [] None) env0 madeWorld =
    (Failure (Die (Thrown "SQLITE_ERROR: syntax error")), w1) /\
    sems w1 = sems madeWorld.
Proof.
  assert (Hq : getAllSync scripted
                 (db (mkConnection scripted "app.db"%string))
                 "SELEC * FROM users" [] (engine (host madeWorld)) =
               (Throw "SQLITE_ERROR: syntax error"%string,
                [CallOpen "app.db";
                 CallQuery "app.db" "SELEC * FROM users" []]))
    by reflexivity.
  destruct (engine_error_is_thrown_and_permit_not_lost scripted
              (mkConnection scripted "app.db"%string)
              "SELEC * FROM users" [] None (host madeWorld) _ _ Hq)
    as (Ha & _ & _ & _ & Hc).
  split; [exact Hq|]. split; [exact Ha|].
  destruct (Hc 0 env0 madeWorld eq_refl) as (w1 & Hw & Hs & _).
  - vm_compute; lia.
  - reflexivity.
  - exists w1. split; assumption.
Defined.

Lemma makeConnection_skips_second_open_witness :
  truthy (dbRef (host madeWorld)) = true /\
  interruptAt madeWorld = None /\
  makeConnection config0 env0 madeWorld =
  (Success None, set_clock (clock madeWorld + 2) madeWorld).
Proof.
  assert (H0 : truthy (dbRef (host madeWorld)) = true) by reflexivity.
  assert (H1 : interruptAt madeWorld = None) by reflexivity.
  destruct (makeConnection_skips_second_open scripted config0 env0 madeWorld H0)
    as (_ & _ & _ & H).
  destruct (H H1) as (Ha & _).
  repeat split; assumption.
Defined.

Lemma executeValues_columns_from_first_row_witness :
  getAllSync scripted "app.db"%string "SELECT * FROM users" []
    (engine (host madeWorld)) =
  (Return usersRows,
   [CallOpen "app.db"; CallQuery "app.db" "SELECT * FROM users" []]) /\
  exists eff,
    executeValues (mkConnection scripted "app.db"%string)
      "SELECT * FROM users" [] (host madeWorld) =
    (Return eff,
     set_engine (E:=scripted)
       [CallOpen "app.db"; CallQuery "app.db" "SELECT * FROM users" []]
       (host madeWorld)) /\
    eff env0 madeWorld = (Success (valuesOf usersRows), tick madeWorld).
Proof.
  assert (Hq : getAllSync scripted
                 (db (mkConnection scripted "app.db"%string))
                 "SELECT * FROM users" [] (engine (host madeWorld)) =
               (Return usersRows,
                [CallOpen "app.db";
                 CallQuery "app.db" "SELECT * FROM users" []]))
    by reflexivity.
  destruct (executeValues_columns_from_first_row scripted
              (mkConnection scripted "app.db"%string)
              "SELECT * FROM users" [] (host madeWorld) _ _ Hq)
    as (eff & Ha & Hb & _).
  split; [exact Hq|]. exists eff. split; [exact Ha|].
  apply Hb. reflexivity.
Defined.

Lemma closeFinalizer_never_raises_and_clears_dbRef_witness :
  fst (closeFinalizer (E:=scripted) "app.db" (host madeWorld)) = Return tt /\
  dbRef (snd (closeFinalizer (E:=scripted) "app.db" (host madeWorld))) =
  Some false /\
  exists w2,
    makeConnection config0 env0
      (set_host (snd (closeFinalizer (E:=scripted) "app.db" (host madeWorld)))
         madeWorld) =
    (Success (Some (mkConnection scripted "app.db")), w2) /\
    host w2 =
    mkHost scripted (Some true)
      [CallOpen "app.db"; CallClose "app.db"; CallOpen "app.db"].
Proof.
  destruct (closeFinalizer_never_raises_and_clears_dbRef scripted
              "app.db" (host madeWorld) ExitSuccess env0 madeWorld)
    as (Ha & Hb & _ & _ & _ & _ & _ & _ & H).
  split; [exact Ha|]. split; [exact Hb|].
  apply (H config0
           (set_host
              (snd (closeFinalizer (E:=scripted) "app.db" (host madeWorld)))
              madeWorld)
           [FinSync (closeFinalizer (E:=scripted) "app.db")]);
    reflexivity.
Defined.

End SqliteClientFacts.

(* ================================================================== *)
(** * Further properties of the casing transforms *)
(* ================================================================== *)

Module TransformMoreFacts.

Import Transform TransformDomain TransformFacts.
Local Open Scope string_scope.

Lemma lower_char_not_upper (c : ascii) : is_upper (lower_char c) = false.
Proof. by_cases_on_char c. Qed.

Lemma lower_upper_char (c : ascii) : lower_char (upper_char c) = lower_char c.
Proof. by_cases_on_char c. Qed.

Lemma upper_char_is_upper (c : ascii) :
  is_lower c = true -> is_upper (upper_char c) = true.
Proof. by_cases_on_char c. Qed.

Lemma lower_upper_char_lower (c : ascii) :
  is_lower c = true -> lower_char (upper_char c) = c.
Proof. by_cases_on_char c. Qed.

Lemma lower_char_sep (c : ascii) : is_sep (lower_char c) = is_sep c.
Proof. by_cases_on_char c. Qed.

Lemma sep_not_hyphen_is_underscore (c : ascii) :
  is_sep c = true -> Ascii.eqb c "-" = false -> c = "_"%char.
Proof. by_cases_on_char c. Qed.

(** [camelToSnake] is already in lower case, whatever it was given. *)
Lemma toLowerCase_camelToSnake_any (s : string) :
  toLowerCase (camelToSnake s) = camelToSnake s.
Proof.
  unfold camelToSnake.
  induction s as [|c s IH]; [reflexivity|].
  cbn [replace_each]. destruct (is_upper c) eqn:Hu.
  - cbn [append toLowerCase] in *. rewrite lower_char_idem, IH. reflexivity.
  - cbn [toLowerCase]. rewrite (lower_char_fixes_non_upper c Hu), IH.
    reflexivity.
Qed.

(** X1.  Whatever the string, [camelToSnake] leaves no character of
    [[A-Z]] in its result. *)
Theorem camelToSnake_has_no_upper (s : string) :
  no_upper (camelToSnake s) = true.
Proof.
  unfold no_upper, camelToSnake.
  induction s as [|c s IH]; [reflexivity|].
  cbn [replace_each]. destruct (is_upper c) eqn:Hu.
  - cbn [append toLowerCase all_chars] in *.
    rewrite lower_char_not_upper, IH. reflexivity.
  - cbn [all_chars]. rewrite Hu, IH. reflexivity.
Qed.

(** X2.  A string without a character of [[A-Z]] is left as it is by
    [camelToSnake]. *)
Theorem camelToSnake_fixes_strings_without_upper (s : string) :
  no_upper s = true -> camelToSnake s = s.
Proof.
  unfold no_upper, camelToSnake.
  induction s as [|c s IH]; [reflexivity|].
  cbn [all_chars replace_each]. intros H.
  apply andb_prop in H as [Hc Hs]. apply negb_true_iff in Hc.
  rewrite Hc, (IH Hs). reflexivity.
Qed.

Lemma camelToSnake_fixes_strings_without_upper_witness :
  no_upper "created_at-2" = true /\ camelToSnake "created_at-2" = "created_at-2".
Proof.
  split; [reflexivity|].
  apply (camelToSnake_fixes_strings_without_upper "created_at-2").
  reflexivity.
Defined.

Lemma replace_pairs_camelToSnake_no_separator (s : string) :
  no_separator s = true ->
  replace_pairs is_sep is_lower
    (fun group => toUpperCase (replace_first is_sep "" group))
    (camelToSnake s) = s.
Proof.
  unfold no_separator, camelToSnake.
  induction s as [|c s IH]; intros H; [reflexivity|].
  cbn [all_chars] in H. apply andb_prop in H as [Hc Hs].
  apply negb_true_iff in Hc. specialize (IH Hs).
  cbn [replace_each].
  destruct (is_upper c) eqn:Hu.
  - cbn [append toLowerCase replace_pairs].
    replace (is_sep "_"%char) with true by reflexivity.
    rewrite (lower_char_is_lower c Hu).
    cbn [andb replace_first append toUpperCase].
    replace (is_sep "_"%char) with true by reflexivity.
    cbn [append toUpperCase].
    cbn [append] in IH.
    rewrite (upper_lower_char c Hu), IH. reflexivity.
  - rewrite replace_pairs_skip by exact Hc.
    rewrite IH. reflexivity.
Qed.

Lemma snakeToCamel_camelToSnake_no_separator (s : string) :
  no_separator s = true -> snakeToCamel (camelToSnake s) = s.
Proof.
  intros H. unfold snakeToCamel.
  rewrite toLowerCase_camelToSnake_any.
  apply replace_pairs_camelToSnake_no_separator. exact H.
Qed.

(** X3.  [camelToSnake] followed by [snakeToCamel] gives back every ASCII
    string that contains neither a hyphen nor an underscore: digits,
    other signs and a leading capital are allowed. *)
Theorem camel_snake_camel_roundtrip_without_separator (s : string) :
  ascii_string s = true ->
  no_separator s = true ->
  snakeToCamel (camelToSnake s) = s.
Proof. intros _ H. apply snakeToCamel_camelToSnake_no_separator. exact H. Qed.

Lemma camel_snake_camel_roundtrip_without_separator_witness :
  ascii_string "UserId2 isOK" = true /\
  no_separator "UserId2 isOK" = true /\
  snakeToCamel (camelToSnake "UserId2 isOK") = "UserId2 isOK".
Proof.
  split; [reflexivity|]. split; [reflexivity|].
  apply (camel_snake_camel_roundtrip_without_separator "UserId2 isOK");
    reflexivity.
Defined.

(** X4.  On ASCII strings without hyphen and underscore [camelToSnake] is
    injective: two different names never get the same snake_case name. *)
Theorem camelToSnake_injective_without_separator (s1 s2 : string) :
  ascii_string s1 = true -> no_separator s1 = true ->
  ascii_string s2 = true -> no_separator s2 = true ->
  camelToSnake s1 = camelToSnake s2 -> s1 = s2.
Proof.
  intros _ Hs1 _ Hs2 Heq.
  rewrite <- (snakeToCamel_camelToSnake_no_separator s1 Hs1).
  rewrite <- (snakeToCamel_camelToSnake_no_separator s2 Hs2).
  rewrite Heq. reflexivity.
Qed.

Lemma camelToSnake_injective_without_separator_witness :
  ascii_string "userId" = true /\ no_separator "userId" = true /\
  (camelToSnake "userId" = camelToSnake "userId" -> "userId" = "userId").
Proof.
  split; [reflexivity|]. split; [reflexivity|].
  apply (camelToSnake_injective_without_separator "userId" "userId");
    reflexivity.
Defined.

Lemma replace_pairs_no_separator (f : string -> string) (s : string) :
  no_separator s = true -> replace_pairs is_sep is_lower f s = s.
Proof.
  unfold no_separator.
  induction s as [|c s IH]; intros H; [reflexivity|].
  cbn [all_chars] in H. apply andb_prop in H as [Hc Hs].
  apply negb_true_iff in Hc.
  rewrite replace_pairs_skip by exact Hc. rewrite (IH Hs). reflexivity.
Qed.

Lemma toLowerCase_no_separator (s : string) :
  no_separator s = true -> no_separator (toLowerCase s) = true.
Proof.
  unfold no_separator.
  induction s as [|c s IH]; intros H; [reflexivity|].
  cbn [all_chars toLowerCase] in *. apply andb_prop in H as [Hc Hs].
  rewrite lower_char_sep, Hc, (IH Hs). reflexivity.
Qed.

(** X5.  On an ASCII string without hyphen and underscore [snakeToCamel]
    is [toLowerCase]: a camelCase name given to it loses its capitals. *)
Theorem snakeToCamel_without_separator_is_toLowerCase (s : string) :
  ascii_string s = true ->
  no_separator s = true -> snakeToCamel s = toLowerCase s.
Proof.
  intros _ H. unfold snakeToCamel.
  apply replace_pairs_no_separator, toLowerCase_no_separator. exact H.
Qed.

Lemma snakeToCamel_without_separator_is_toLowerCase_witness :
  ascii_string "createdAt" = true /\
  no_separator "createdAt" = true /\ snakeToCamel "createdAt" = "createdat".
Proof.
  split; [reflexivity|]. split; [reflexivity|].
  apply (snakeToCamel_without_separator_is_toLowerCase "createdAt");
    reflexivity.
Defined.

Lemma toLowerCase_no_upper (s : string) :
  no_upper s = true -> toLowerCase s = s.
Proof.
  unfold no_upper.
  induction s as [|c s IH]; intros H; [reflexivity|].
  cbn [all_chars toLowerCase] in *. apply andb_prop in H as [Hc Hs].
  apply negb_true_iff in Hc.
  rewrite (lower_char_fixes_non_upper c Hc), (IH Hs). reflexivity.
Qed.

Lemma camelToSnake_cons_upper (c : ascii) (s : string) :
  is_upper c = true ->
  camelToSnake (String c s) =
  String "_" (String (lower_char c) (camelToSnake s)).
Proof. intros H. unfold camelToSnake. cbn [replace_each]. rewrite H. reflexivity. Qed.

Lemma camelToSnake_cons_other (c : ascii) (s : string) :
  is_upper c = false -> camelToSnake (String c s) = String c (camelToSnake s).
Proof. intros H. unfold camelToSnake. cbn [replace_each]. rewrite H. reflexivity. Qed.

Lemma replace_pairs_cons2 (c1 c2 : ascii -> bool) (f : string -> string)
  (a b : ascii) (rest : string) :
  replace_pairs c1 c2 f (String a (String b rest)) =
  if c1 a && c2 b
  then f (String a (String b EmptyString)) ++ replace_pairs c1 c2 f rest
  else String a (replace_pairs c1 c2 f (String b rest)).
Proof. reflexivity. Qed.

Lemma snake_camel_snake_bounded (n : nat) (s : string) :
  String.length s <= n ->
  no_upper s = true -> no_hyphen s = true ->
  camelToSnake
    (replace_pairs is_sep is_lower
       (fun group => toUpperCase (replace_first is_sep "" group)) s) = s.
Proof.
  revert s. induction n as [|n IH]; intros s Hlen Hu Hh.
  - destruct s; [reflexivity|]. cbn [String.length] in Hlen. lia.
  - destruct s as [|a t]; [reflexivity|].
    unfold no_upper, no_hyphen in Hu, Hh. cbn [all_chars] in Hu, Hh.
    apply andb_prop in Hu as [Hua Hut]. apply andb_prop in Hh as [Hha Hht].
    apply negb_true_iff in Hua, Hha.
    cbn [String.length] in Hlen.
    destruct t as [|b rest].
    + cbn [replace_pairs]. apply camelToSnake_cons_other. exact Hua.
    + cbn [all_chars] in Hut, Hht.
      apply andb_prop in Hut as [Hub Hur]. apply andb_prop in Hht as [Hhb Hhr].
      cbn [String.length] in Hlen.
      rewrite replace_pairs_cons2.
      destruct (is_sep a && is_lower b) eqn:Hm.
      * apply andb_prop in Hm as [Hsa Hlb].
        rewrite (sep_not_hyphen_is_underscore a Hsa Hha).
        cbn [replace_first]. replace (is_sep "_"%char) with true by reflexivity.
        cbn [append toUpperCase].
        rewrite (camelToSnake_cons_upper _ _ (upper_char_is_upper b Hlb)).
        rewrite (lower_upper_char_lower b Hlb).
        rewrite (IH rest) by (try lia; assumption). reflexivity.
      * rewrite (camelToSnake_cons_other _ _ Hua).
        rewrite (IH (String b rest)); [reflexivity| cbn [String.length]; lia | |].
        -- unfold no_upper. cbn [all_chars]. rewrite Hub, Hur. reflexivity.
        -- unfold no_hyphen. cbn [all_chars]. rewrite Hhb, Hhr. reflexivity.
Qed.

(** X6.  [snakeToCamel] followed by [camelToSnake] gives back every ASCII
    string that has no character of [[A-Z]] and no hyphen: snake_case
    names, also with digits, doubled, leading or trailing underscores. *)
Theorem snake_camel_snake_roundtrip (s : string) :
  ascii_string s = true ->
  no_upper s = true ->
  no_hyphen s = true ->
  camelToSnake (snakeToCamel s) = s.
Proof.
  intros _ Hu Hh. unfold snakeToCamel.
  rewrite (toLowerCase_no_upper s Hu).
  apply (snake_camel_snake_bounded (String.length s)); auto.
Qed.

Lemma snake_camel_snake_roundtrip_witness :
  ascii_string "_user__id_2_" = true /\
  no_upper "_user__id_2_" = true /\
  no_hyphen "_user__id_2_" = true /\
  camelToSnake (snakeToCamel "_user__id_2_") = "_user__id_2_".
Proof.
  split; [reflexivity|]. split; [reflexivity|]. split; [reflexivity|].
  apply (snake_camel_snake_roundtrip "_user__id_2_"); reflexivity.
Defined.

Lemma toLowerCase_toUpperCase (s : string) :
  toLowerCase (toUpperCase s) = toLowerCase s.
Proof.
  induction s as [|c s IH]; [reflexivity|].
  cbn [toUpperCase toLowerCase]. rewrite lower_upper_char, IH. reflexivity.
Qed.

(** X7.  [snakeToCamel] does not see the case of an ASCII string: a name
    written in capitals gets the same result as the name in lower
    case. *)
Theorem snakeToCamel_ignores_case (s : string) :
  ascii_string s = true ->
  snakeToCamel (toUpperCase s) = snakeToCamel s /\
  snakeToCamel (toLowerCase s) = snakeToCamel s.
Proof.
  intros _. unfold snakeToCamel. split.
  - rewrite toLowerCase_toUpperCase. reflexivity.
  - assert (Hidem : toLowerCase (toLowerCase s) = toLowerCase s).
    { induction s as [|c s IH]; [reflexivity|].
      cbn [toLowerCase]. rewrite lower_char_idem, IH. reflexivity. }
    rewrite Hidem. reflexivity.
Qed.

Lemma snakeToCamel_ignores_case_witness :
  ascii_string "user_id" = true /\
  snakeToCamel "USER_ID" = snakeToCamel "user_id".
Proof.
  split; [reflexivity|].
  apply (snakeToCamel_ignores_case "user_id"). reflexivity.
Defined.

End TransformMoreFacts.

(* ================================================================== *)
(** * Further properties of the client *)
(* ================================================================== *)

Module SqliteClientMoreFacts.

Import Runtime SqliteClient SqliteClientFrames RuntimeFacts SqliteClientFacts.

(** ** Value tuples *)

Lemma getProperty_missing (row : Row) (column : string) :
  ~ In column (keys row) -> getProperty row column = VUndefined.
Proof.
  induction row as [|[k v] row IH]; intros Hnotin; [reflexivity|].
  cbn [getProperty]. destruct (String.eqb k column) eqn:Heq.
  - apply String.eqb_eq in Heq. exfalso. apply Hnotin. left. exact Heq.
  - apply IH. intros Hin. apply Hnotin. right. exact Hin.
Qed.

(** X8.  In the tuples of [executeValues], a row that lacks one of the
    first row's columns has [undefined] at that column's position, unless
    the column bears the name of a member of [Object.prototype]. *)
Theorem valuesOf_missing_column_is_undefined (first : Row) (rest : list Row)
  (i j : nat) (row : Row) (column : string) :
  nth_error (first :: rest) i = Some row ->
  nth_error (keys first) j = Some column ->
  ~ In column (keys row) ->
  ~ In column objectPrototypeNames ->
  exists tuple,
    nth_error (valuesOf (first :: rest)) i = Some tuple /\
    nth_error tuple j = Some VUndefined.
Proof.
  intros Hrow Hcol Hmiss _.
  exists (List.map (getProperty row) (keys first)). split.
  - apply valuesOf_nth. exact Hrow.
  - rewrite nth_error_map, Hcol. cbn [option_map].
    rewrite (getProperty_missing row column Hmiss). reflexivity.
Qed.

(** X9.  The result of [executeValues] is rectangular: every tuple has as
    many values as the first row has keys, whatever the other rows
    hold. *)
Theorem valuesOf_tuples_have_first_row_width (first : Row) (rest : list Row)
  (tuple : list Value) :
  In tuple (valuesOf (first :: rest)) ->
  List.length tuple = List.length first.
Proof.
  unfold valuesOf. intros Hin. apply in_map_iff in Hin as (row & <- & _).
  unfold keys. rewrite !length_map. reflexivity.
Qed.

(** X10.  When every row has the keys of the first row, in the same
    order, [executeValues] returns the values of each row in the row's own
    order. *)
Theorem valuesOf_uniform_rows (first : Row) (rest : list Row) :
  NoDup (keys first) ->
  Forall (fun row => keys row = keys first) rest ->
  valuesOf (first :: rest) = List.map (List.map snd) (first :: rest).
Proof.
  intros Hnd Hall. unfold valuesOf. apply map_ext_in.
  intros row [<-|Hin].
  - apply getProperty_own_keys. exact Hnd.
  - rewrite Forall_forall in Hall. specialize (Hall row Hin).
    rewrite <- Hall. apply getProperty_own_keys. rewrite Hall. exact Hnd.
Qed.

Section WithEngine.

Variable E : Engine.

(** ** The methods and the gate *)

Lemma set_engine_set_engine (e1 e2 : EState E) (h : HostState E) :
  set_engine e1 (set_engine e2 h) = set_engine e1 h.
Proof. reflexivity. Qed.

Lemma set_engine_engine (h : HostState E) : set_engine (engine h) h = h.
Proof. destruct h; reflexivity. Qed.

Lemma succeed_engineOnly {A : Type} (a : A) :
  engineOnly (E:=E) (succeed a).
Proof.
  intros env w. unfold succeed, step.
  destruct (interruptible env && interrupted w); cbn [fst snd].
  - split; [|discriminate]. exists (engine (host w)), (clock w).
    rewrite set_engine_engine. destruct w; reflexivity.
  - split; [|discriminate]. exists (engine (host w)), (S (clock w)).
    rewrite set_engine_engine. destruct w; reflexivity.
Qed.

Lemma map_engineOnly {A B : Type} (e : Eff (HostState E) A) (f : A -> B) :
  engineOnly e -> engineOnly (map e f).
Proof.
  intros He env w. destruct (He env w) as ((eng & c & Hw) & Hs).
  unfold map. destruct (e env w) as [[a|x|] w1]; cbn [fst snd] in *.
  - split; [eauto|discriminate].
  - split; [eauto|discriminate].
  - contradiction.
Qed.

Lemma dieMessage_engineOnly {A : Type} (message : string) :
  engineOnly (E:=E) (A:=A) (dieMessage message).
Proof.
  intros env w. unfold dieMessage, die, step.
  destruct (interruptible env && interrupted w); cbn [fst snd].
  - split; [|discriminate]. exists (engine (host w)), (clock w).
    rewrite set_engine_engine. destruct w; reflexivity.
  - split; [|discriminate]. exists (engine (host w)), (S (clock w)).
    rewrite set_engine_engine. destruct w; reflexivity.
Qed.

Lemma run_engineOnlyCall (d : Db E) (sql : string)
  (params : option (list Value)) :
  engineOnlyCall (run d sql params).
Proof.
  intros h. unfold run.
  destruct (getAllSync E d sql _ (engine h)) as [[rows|x] e]; cbn [fst snd].
  - split; [eauto|]. apply succeed_engineOnly.
  - split; [eauto|exact I].
Qed.

Lemma execute_engineOnlyCall (this : SqliteConnection E) (sql : string)
  (params : list Value) (transformRows : option RowTransform) :
  engineOnlyCall (execute this sql params transformRows).
Proof.
  intros h. unfold execute.
  destruct transformRows as [f|]; [|apply run_engineOnlyCall].
  destruct (run_engineOnlyCall (db this) sql (Some params) h) as (Hh & He).
  destruct (run (db this) sql (Some params) h) as [[eff|x] h'];
    cbn [fst snd] in *.
  - split; [exact Hh|]. apply map_engineOnly. exact He.
  - split; [exact Hh|exact I].
Qed.

Lemma executeValues_engineOnlyCall (this : SqliteConnection E) (sql : string)
  (params : list Value) :
  engineOnlyCall (executeValues this sql params).
Proof.
  intros h. unfold executeValues.
  destruct (run_engineOnlyCall (db this) sql (Some params) h) as (Hh & He).
  destruct (run (db this) sql (Some params) h) as [[eff|x] h'];
    cbn [fst snd] in *.
  - split; [exact Hh|]. apply map_engineOnly. exact He.
  - split; [exact Hh|exact I].
Qed.

Lemma executeStream_engineOnlyCall (this : SqliteConnection E) (sql : string)
  (params : list Value) (transformRows : option RowTransform) :
  engineOnlyCall (executeStream this sql params transformRows).
Proof.
  intros h. unfold executeStream. cbn [fst snd]. split.
  - exists (engine h). rewrite set_engine_engine. reflexivity.
  - apply dieMessage_engineOnly.
Qed.

(** X11.  None of the five methods of the connection touches [dbRef], a
    permit or a scope, neither at the call nor when the effect it returns
    is run, and none of these effects waits. *)
Theorem connection_methods_touch_engine_only (this : SqliteConnection E)
  (sql : string) (params : list Value) (transformRows : option RowTransform) :
  engineOnlyCall (execute this sql params transformRows) /\
  engineOnlyCall (executeRaw this sql params) /\
  engineOnlyCall (executeValues this sql params) /\
  engineOnlyCall (executeUnprepared this sql params transformRows) /\
  engineOnlyCall (executeStream this sql params transformRows).
Proof.
  split; [apply execute_engineOnlyCall|].
  split; [apply run_engineOnlyCall|].
  split; [apply executeValues_engineOnlyCall|].
  split; [apply execute_engineOnlyCall|apply executeStream_engineOnlyCall].
Qed.

(** X12.  [execute] with a row transform and [executeValues] are
    [executeRaw] followed by a pure step: the engine is called in the same
    way, an exception or an interrupt passes through unchanged, and only a
    successful result is transformed. *)
Theorem execute_and_executeValues_are_executeRaw_mapped
  (this : SqliteConnection E) (sql : string) (params : list Value)
  (f : RowTransform) (env : Env) (w : World (HostState E)) :
  call (execute this sql params (Some f)) env w =
  map (call (executeRaw this sql params)) f env w /\
  call (execute this sql params None) env w =
  call (executeRaw this sql params) env w /\
  call (executeValues this sql params) env w =
  map (call (executeRaw this sql params)) valuesOf env w.
Proof.
  unfold execute, executeValues, executeRaw, call, map, run.
  destruct (getAllSync E (db this) sql params (engine (host w)))
    as [[rows|x] e]; repeat split; reflexivity.
Qed.

(** ** Permits are conserved *)


(** The three ways the transaction acquirer can end in an open scope. *)
Lemma transactionAcquirer_cases (s : SemRef)
  (conn : option (SqliteConnection E)) (env : Env) (w : World (HostState E))
  (fs : list (Finalizer (HostState E))) :
  scopeState (currentScope env) w = ScopeOpen fs ->
  (exists c, transactionAcquirer s conn env w = (Failure Interrupt, set_clock c w)) \/
  transactionAcquirer s conn env w = (Suspended, w) \/
  (1 <= free s w /\
   transactionAcquirer s conn env w =
   (Success conn,
    set_scopes
      (set_nth (currentScope env) (ScopeOpen (FinRelease s 1 :: fs)) (scopes w))
      (set_sems (set_nth s (free s w - 1) (sems w))
         (set_clock (clock w + 3) w)))).
Proof.
  intros Hsc.
  destruct (interruptible env && interrupted w) eqn:Hp.
  - left. exists (clock w).
    rewrite (transactionAcquirer_pending E s conn env w Hp).
    destruct w; reflexivity.
  - destruct (free s w) as [|n] eqn:Hfree.
    + rewrite (transactionAcquirer_waits E s conn env w Hfree Hp).
      destruct (interruptible env); [destruct (interruptAt w)|]; eauto.
    + right. right. split; [lia|].
      rewrite <- Hfree.
      apply (transactionAcquirer_success E s conn env w fs Hsc); [lia|exact Hp].
Qed.

Lemma scoped_unfold {A : Type} (self : Eff (HostState E) A) (env : Env)
  (w : World (HostState E)) :
  scoped self env w =
  match self (set_scope (List.length (scopes w)) env)
          (set_scopes (scopes w ++ [ScopeOpen []]) (tick w)) with
  | (Suspended, w2) => (Suspended, w2)
  | (o, w2) =>
      match scopeClose (List.length (scopes w)) (exitKind o) env w2 with
      | (Success _, w3) => (o, w3)
      | (Failure c, w3) =>
          (match o with Success _ => Failure c | _ => o end, w3)
      | (Suspended, w3) => (Suspended, w3)
      end
  end.
Proof. reflexivity. Qed.

(** X13.  A statement issued through the single-statement acquirer
    changes nothing of the world but the engine's state and the clock,
    however it ends and whenever an interrupt arrives: no permit is kept,
    no scope is touched, [dbRef] is as before. *)
Theorem statement_through_acquirer_touches_engine_only {A : Type}
  (s : SemRef) (conn : option (SqliteConnection E))
  (statement : SqliteConnection E -> JS (HostState E) (Eff (HostState E) A))
  (env : Env) (w : World (HostState E)) :
  (forall c, engineOnlyCall (statement c)) ->
  exists eng c,
    snd (withStatement (acquirer s conn) statement env w) =
    set_host (set_engine eng (host w)) (set_clock c w).
Proof.
  intros Hst. unfold withStatement, flatMapJS.
  destruct (acquirer_frame E s conn env w) as (c0 & Hframe).
  destruct (acquirer s conn env w) as [[a|x|] w1]; cbn [snd] in Hframe;
    subst w1.
  - unfold call. destruct a as [c1|].
    + destruct (Hst c1 (host (set_clock c0 w))) as ((eng & Hh) & He).
      destruct (statement c1 (host (set_clock c0 w))) as [[e|x] h'];
        cbn [fst snd] in *; subst h'.
      * destruct (He env (set_host (set_engine eng (host (set_clock c0 w)))
                            (set_clock c0 w))) as ((eng' & c' & Hw) & _).
        rewrite Hw. exists eng', c'. destruct w; reflexivity.
      * exists eng, c0. destruct w; reflexivity.
    + cbn [snd]. exists (engine (host w)), c0.
      rewrite set_engine_engine. destruct w; reflexivity.
  - cbn [snd]. exists (engine (host w)), c0.
    rewrite set_engine_engine. destruct w; reflexivity.
  - cbn [snd]. exists (engine (host w)), c0.
    rewrite set_engine_engine. destruct w; reflexivity.
Qed.

Lemma scopeClose_empty_scope (scs : list (ScopeState (HostState E)))
  (exit : ExitKind) (env : Env) (w2 : World (HostState E)) :
  scopes w2 = scs ++ [ScopeOpen []] ->
  scopeClose (List.length scs) exit env w2 =
  (Success tt, set_scopes (scs ++ [ScopeClosed]) w2).
Proof.
  intros Hscs. unfold scopeClose, scopeState. rewrite Hscs, nth_app_last.
  cbn [runFinalizers]. rewrite set_nth_app_last. reflexivity.
Qed.

Lemma scopeClose_releases (s : SemRef) (ss : list nat)
  (scs : list (ScopeState (HostState E))) (exit : ExitKind) (env : Env)
  (w2 : World (HostState E)) :
  1 <= nth s ss 0 ->
  sems w2 = set_nth s (nth s ss 0 - 1) ss ->
  scopes w2 =
  set_nth (List.length scs) (ScopeOpen [FinRelease s 1]) (scs ++ [ScopeOpen []]) ->
  exists w3,
    scopeClose (List.length scs) exit env w2 = (Success tt, w3) /\
    sems w3 = ss /\ scopes w3 = scs ++ [ScopeClosed] /\ host w3 = host w2.
Proof.
  intros Hfree Hsems Hscs.
  destruct w2 as [h2 ss2 scs2 c2 ia2]. cbn [sems scopes] in Hsems, Hscs.
  subst ss2 scs2.
  unfold scopeClose, scopeState. cbn [scopes].
  rewrite set_nth_app_last, nth_app_last.
  cbn [runFinalizers runFinalizer].
  unfold as_, map, release, step, set_interruptible, free, tick, set_clock,
    set_sems, set_scopes.
  cbn [interruptible andb host sems scopes clock interruptAt].
  eexists. split; [reflexivity|].
  cbn [host sems scopes]. split; [|split; [|reflexivity]].
  - apply (take_then_release s 1 ss Hfree).
  - apply set_nth_app_last.
Qed.

(** X14.  A transaction (the transaction acquirer and a statement, in a
    scope of its own) whose statement call returns its effect, that is,
    where the engine does not throw at the call, gives back what it took,
    however the effect ends and whenever an interrupt arrives: the permit
    counters are as before, [dbRef] is as before, and unless the fiber is
    left waiting for the permit the transaction's scope is closed. *)
Theorem transaction_conserves_permits {A : Type}
  (s : SemRef) (this : SqliteConnection E)
  (statement : SqliteConnection E -> JS (HostState E) (Eff (HostState E) A))
  (env : Env) (w : World (HostState E)) :
  engineOnlyCall (statement this) ->
  (exists e h', statement this (host w) = (Return e, h')) ->
  sems (snd (withTransaction (transactionAcquirer s (Some this)) statement
               env w)) =
  sems w /\
  (exists eng,
     host (snd (withTransaction (transactionAcquirer s (Some this)) statement
                  env w)) =
     set_engine eng (host w)) /\
  (fst (withTransaction (transactionAcquirer s (Some this)) statement env w)
   <> Suspended ->
   scopes (snd (withTransaction (transactionAcquirer s (Some this)) statement
                  env w)) =
   scopes w ++ [ScopeClosed]).
Proof.
  intros Hst (e0 & h0 & Hret). unfold withTransaction. rewrite scoped_unfold.
  set (sc := List.length (scopes w)).
  set (w0 := set_scopes (scopes w ++ [ScopeOpen []]) (tick w)).
  assert (Hsc0 : scopeState (currentScope (set_scope sc env)) w0 = ScopeOpen []).
  { unfold scopeState, w0, sc. cbn [currentScope set_scope scopes set_scopes].
    apply nth_app_last. }
  assert (Hid : forall h : HostState E, h = set_engine (engine h) h)
    by (intros h; symmetry; apply set_engine_engine).
  unfold withStatement, flatMapJS.
  destruct (transactionAcquirer_cases s (Some this) (set_scope sc env) w0 []
              Hsc0)
    as [(c & H)|[H|(Hfree & H)]]; rewrite H.
  - cbn [exitKind].
    rewrite (scopeClose_empty_scope (scopes w) _ env (set_clock c w0))
      by reflexivity.
    cbn [fst snd]. split; [reflexivity|]. split; [|reflexivity].
    exists (engine (host w)). apply Hid.
  - cbn [fst snd]. split; [reflexivity|]. split; [|intros Hn; contradiction].
    exists (engine (host w)). apply Hid.
  - set (w1 := set_scopes _ _).
    assert (Hclose : forall (exit : ExitKind) (w2 : World (HostState E)),
               sems w2 = sems w1 -> scopes w2 = scopes w1 ->
               exists w3,
                 scopeClose sc exit env w2 = (Success tt, w3) /\
                 sems w3 = sems w /\ scopes w3 = scopes w ++ [ScopeClosed] /\
                 host w3 = host w2).
    { intros exit w2 Hs2 Hc2.
      apply (scopeClose_releases s (sems w) (scopes w) exit env w2).
      - exact Hfree.
      - rewrite Hs2. reflexivity.
      - rewrite Hc2. reflexivity. }
    unfold call.
    destruct (Hst (host w1)) as ((eng & Hh) & He).
    change (host w1) with (host w) in *.
    rewrite Hret in *. cbn [fst snd] in *. subst h0.
    destruct (He (set_scope sc env) (set_host (set_engine eng (host w)) w1))
      as ((eng' & c' & Hw) & Hns).
    destruct (e0 (set_scope sc env) (set_host (set_engine eng (host w)) w1))
      as [o w2]. cbn [fst snd] in Hw, Hns. subst w2.
    destruct (Hclose (exitKind o)
                (set_host (set_engine eng'
                             (host (set_host (set_engine eng (host w)) w1)))
                   (set_clock c' (set_host (set_engine eng (host w)) w1)))
                eq_refl eq_refl) as (w3 & Hcl & Hs3 & Hc3 & Hh3).
    destruct o as [a|x|]; [| |contradiction]; rewrite Hcl; cbn [fst snd];
      (split; [exact Hs3|]; split; [|intros _; exact Hc3]);
      rewrite Hh3; exists eng'; reflexivity.
Qed.

(** ** The closed gate *)


(** X16.  The gate is not re-entrant.  Once the transaction acquirer has
    taken the only permit, a further acquisition by the same fiber, through
    either acquirer and in whatever scope, never returns: the fiber is
    left waiting with the world unchanged. *)
Theorem gate_is_not_reentrant (s : SemRef)
  (conn : option (SqliteConnection E)) (env : Env) (w : World (HostState E))
  (fs : list (Finalizer (HostState E))) :
  scopeState (currentScope env) w = ScopeOpen fs ->
  free s w = 1 ->
  interruptAt w = None ->
  exists w1,
    transactionAcquirer s conn env w = (Success conn, w1) /\
    forall (conn' : option (SqliteConnection E)) (env' : Env),
      acquirer s conn' env' w1 = (Suspended, w1) /\
      transactionAcquirer s conn' env' w1 = (Suspended, w1).
Proof.
  intros Hsc Hfree Hi.
  assert (Hp : interruptible env && interrupted w = false).
  { unfold interrupted. rewrite Hi. apply andb_false_r. }
  assert (H1 : 1 <= free s w) by lia.
  pose proof (free_in_range s w H1) as Hs.
  eexists. split;
    [apply (transactionAcquirer_success E s conn env w fs Hsc H1 Hp)|].
  intros conn' env'.
  set (w1 := set_scopes _ _).
  assert (Hfree1 : free s w1 = 0).
  { unfold w1, free. cbn [sems set_scopes set_sems set_clock].
    rewrite (nth_set_nth s _ _ (sems w) Hs). unfold free in Hfree. lia. }
  assert (Hi1 : interruptAt w1 = None) by (destruct w; exact Hi).
  assert (Hp1 : interruptible env' && interrupted w1 = false).
  { unfold interrupted. rewrite Hi1. apply andb_false_r. }
  rewrite (acquirer_waits E s conn' env' w1 Hfree1 Hp1).
  rewrite (transactionAcquirer_waits E s conn' env' w1 Hfree1 Hp1).
  rewrite Hi1. destruct (interruptible env'); split; reflexivity.
Qed.

(** ** Statements the engine answers *)

(** X17.  A statement the engine answers succeeds, through either
    acquirer, with the engine's rows, passed through the row transform
    when one is given; the engine has been called once, and afterwards the
    permit counters are as before (in a transaction the scope is
    closed). *)
Theorem answered_statement_returns_rows (this : SqliteConnection E)
  (sql : string) (params : list Value) (transformRows : option RowTransform)
  (rows : list Row) (e' : EState E)
  (s : SemRef) (env : Env) (w : World (HostState E)) :
  getAllSync E (db this) sql params (engine (host w)) = (Return rows, e') ->
  1 <= free s w ->
  interruptAt w = None ->
  withStatement (acquirer s (Some this))
    (fun c => execute c sql params transformRows) env w =
  (Success (match transformRows with Some f => f rows | None => rows end),
   set_host (set_engine e' (host w)) (set_clock (clock w + 4) w)) /\
  exists w1,
    withTransaction (transactionAcquirer s (Some this))
      (fun c => execute c sql params transformRows) env w =
    (Success (match transformRows with Some f => f rows | None => rows end),
     w1) /\
    sems w1 = sems w /\
    host w1 = set_engine e' (host w) /\
    scopes w1 = scopes w ++ [ScopeClosed].
Proof.
  intros Hq Hfree Hi.
  pose proof (free_in_range s w Hfree) as Hs.
  assert (Hx : execute this sql params transformRows (host w) =
               (Return (match transformRows with
                        | Some f => map (succeed rows) f
                        | None => succeed rows
                        end), set_engine e' (host w))).
  { unfold execute, run. rewrite Hq. destruct transformRows; reflexivity. }
  split.
  - rewrite (withStatement_after_acquirer E s (Some this) _ env w Hfree Hi).
    unfold call. cbn [host set_clock]. rewrite Hx.
    destruct w as [h ss scs c ia]. cbn [interruptAt] in Hi. subst ia.
    destruct transformRows; run_effects; rewrite ?andb_false_r;
      repeat f_equal; lia.
  - destruct w as [h ss scs c ia], env as [i sc].
    cbn [host interruptAt] in Hx, Hi. subst ia.
    run_effects. rewrite ?andb_false_r.
    rewrite (proj2 (Nat.leb_le _ _) Hfree). project_world.
    rewrite nth_app_last. project_world.
    rewrite Hx. project_world.
    destruct transformRows as [f|]; run_effects; rewrite ?andb_false_r;
      project_world;
      rewrite set_nth_app_last, nth_app_last; project_world;
      (eexists; split; [reflexivity|]; run_effects;
       split; [|split; [reflexivity|apply set_nth_app_last]];
       rewrite (nth_set_nth s _ _ ss Hs), set_nth_set_nth;
       replace (nth s ss 0 - 1 + 1) with (nth s ss 0) by lia;
       apply set_nth_nth).
Qed.

(** ** Opening and closing the database *)

Lemma quiet_is_not_pending (env : Env) (w : World (HostState E)) :
  interruptAt w = None -> interruptible env && interrupted w = false.
Proof. intros H. unfold interrupted. rewrite H. apply andb_false_r. Qed.

Lemma makeConnection_live_quiet (options : SqliteClientConfig) (env : Env)
  (w : World (HostState E)) :
  truthy (dbRef (host w)) = true ->
  interruptAt w = None ->
  makeConnection options env w = (Success None, set_clock (clock w + 2) w).
Proof.
  intros Hlive Hi. rewrite (makeConnection_live E options env w Hlive).
  rewrite (quiet_is_not_pending env w Hi).
  rewrite (quiet_is_not_pending env (tick w)) by (destruct w; exact Hi).
  destruct w as [h ss scs c ia]. unfold tick, set_clock.
  cbn [host sems scopes clock interruptAt]. repeat f_equal. lia.
Qed.

(** X18.  The first [make] (no handle live, the engine opens the
    database) creates one semaphore with one free permit, opens the
    database once, sets [dbRef], registers the close finalizer on the
    scope it runs in, and builds both acquirers around the new connection
    and the new semaphore. *)
Theorem make_opens_database_and_builds_gate (options : SqliteClientConfig)
  (env : Env) (w : World (HostState E)) (fs : list (Finalizer (HostState E)))
  (d : Db E) (e : EState E) :
  truthy (dbRef (host w)) = false ->
  interruptAt w = None ->
  scopeState (currentScope env) w = ScopeOpen fs ->
  openDatabaseSync E (database options) (engine (host w)) = (Return d, e) ->
  exists w',
    make options env w =
    (Success
       (mkMakeOptions
          (acquirer (List.length (sems w)) (Some (mkConnection E d)))
          (transactionAcquirer (List.length (sems w)) (Some (mkConnection E d)))),
     w') /\
    sems w' = sems w ++ [1] /\
    free (List.length (sems w)) w' = 1 /\
    host w' = mkHost E (Some true) e /\
    scopes w' =
    set_nth (currentScope env) (ScopeOpen (FinSync (closeFinalizer d) :: fs))
      (scopes w).
Proof.
  intros Hlive Hi Hsc Hopen.
  unfold make, flatMap, makeSemaphore, step.
  rewrite (quiet_is_not_pending env w Hi).
  cbv beta.
  match goal with
  | |- context [makeConnection options env ?w0] =>
      rewrite (makeConnection_opens E options env w0 fs d e)
        by (destruct w; assumption)
  end.
  unfold succeed, step.
  rewrite quiet_is_not_pending by (destruct w; exact Hi).
  eexists. split; [destruct w; reflexivity|].
  destruct w as [h ss scs c ia]. cbn [sems scopes host tick set_clock set_sems
    set_scopes set_host clock interruptAt].
  split; [reflexivity|]. split; [|split; reflexivity].
  unfold free. cbn [sems]. apply nth_app_last.
Qed.

(** X19.  When the engine fails to open the database, [makeConnection]
    dies with the engine's exception, having set [dbRef] and registered no
    finalizer; with [dbRef] left set, every later [makeConnection] yields
    [undefined] without calling the engine: the failed open is not tried
    again. *)
Theorem failed_open_is_never_retried (options : SqliteClientConfig)
  (env : Env) (w : World (HostState E)) (x : JsError) (e : EState E) :
  truthy (dbRef (host w)) = false ->
  interruptible env && interrupted w = false ->
  openDatabaseSync E (database options) (engine (host w)) = (Throw x, e) ->
  makeConnection options env w =
  (Failure (Die (Thrown x)), set_host (mkHost E (Some true) e) (tick w)) /\
  forall (options' : SqliteClientConfig) (env' : Env)
         (w' : World (HostState E)),
    host w' = mkHost E (Some true) e ->
    interruptAt w' = None ->
    makeConnection options' env' w' =
    (Success None, set_clock (clock w' + 2) w').
Proof.
  intros Hlive Hp Hopen. split.
  - unfold makeConnection, suspend, call. rewrite Hp.
    cbn [host tick set_clock]. rewrite Hlive.
    cbn [set_dbRef engine]. rewrite Hopen. reflexivity.
  - intros options' env' w' Hh Hi.
    apply makeConnection_live_quiet; [|exact Hi].
    rewrite Hh. reflexivity.
Qed.

Lemma runFinalizers_close_first (d : Db E)
  (fs : list (Finalizer (HostState E))) (exit : ExitKind) (env : Env)
  (w : World (HostState E)) :
  interruptible env = false ->
  runFinalizers (FinSync (closeFinalizer d) :: fs) exit env w =
  runFinalizers fs exit env
    (set_host (snd (closeFinalizer d (host w))) (tick w)).
Proof.
  intros Hi. cbn [runFinalizers runFinalizer].
  unfold sync, step. rewrite Hi. cbn [andb].
  unfold closeFinalizer at 1. cbn [host tick set_clock].
  destruct (runFinalizers fs exit env _) as [[[]| |] w3]; reflexivity.
Qed.

(** X20.  The database a [makeConnection] opened is the one the scope
    closes: when the scope is closed, on whatever exit, the first thing
    done is [closeSync] on that handle and the reset of [dbRef], before
    the older finalizers of the scope run; no permit is involved. *)
Theorem closing_the_scope_closes_the_opened_database
  (options : SqliteClientConfig) (env : Env) (w : World (HostState E))
  (fs : list (Finalizer (HostState E))) (d : Db E) (e : EState E) :
  truthy (dbRef (host w)) = false ->
  interruptAt w = None ->
  scopeState (currentScope env) w = ScopeOpen fs ->
  openDatabaseSync E (database options) (engine (host w)) = (Return d, e) ->
  exists w1,
    makeConnection options env w = (Success (Some (mkConnection E d)), w1) /\
    forall (exit : ExitKind) (env' : Env),
    exists w2,
      scopeClose (currentScope env) exit env' w1 =
      runFinalizers fs exit (set_interruptible false env') w2 /\
      host w2 = mkHost E (Some false) (snd (closeSync E d e)) /\
      sems w2 = sems w /\
      scopeState (currentScope env) w2 = ScopeClosed.
Proof.
  intros Hlive Hi Hsc Hopen.
  assert (Hscl : currentScope env < List.length (scopes w)).
  { unfold scopeState in Hsc.
    destruct (Nat.lt_ge_cases (currentScope env) (List.length (scopes w)))
      as [Hl|Hl]; [exact Hl|].
    rewrite nth_overflow in Hsc by exact Hl. discriminate. }
  eexists. split;
    [apply (makeConnection_opens E options env w fs d e Hlive Hi Hsc Hopen)|].
  intros exit env'.
  destruct w as [h ss scs c ia], env as [i sc].
  cbn [currentScope scopes] in Hscl.
  unfold scopeClose, scopeState.
  cbn [scopes set_scopes set_host set_clock host sems clock interruptAt
       currentScope].
  rewrite (nth_set_nth sc _ _ scs Hscl).
  eexists. split; [apply runFinalizers_close_first; reflexivity|].
  cbn [host set_host tick set_clock set_scopes sems scopes clock interruptAt
       closeFinalizer snd set_dbRef set_engine dbRef engine].
  split; [reflexivity|]. split; [reflexivity|].
  unfold scopeState. cbn [scopes].
  rewrite set_nth_set_nth. apply nth_set_nth. exact Hscl.
Qed.

(** ** Cancellation before the gate *)

Lemma acquirer_pending (s : SemRef) (conn : option (SqliteConnection E))
  (env : Env) (w : World (HostState E)) :
  interruptible env && interrupted w = true ->
  acquirer s conn env w = (Failure Interrupt, w).
Proof.
  destruct w as [h ss scs c ia], env as [i sc]. run_effects.
  intros ->. reflexivity.
Qed.

Lemma pending_after_tick (env : Env) (w : World (HostState E))
  (scs : list (ScopeState (HostState E))) (sc : ScopeRef) :
  interruptible env && interrupted w = true ->
  interruptible (set_scope sc env) && interrupted (set_scopes scs (tick w)) =
  true.
Proof.
  destruct w as [h ss scs0 c ia], env as [i sc0].
  unfold interrupted, set_scope, set_scopes, tick, set_clock.
  cbn [interruptible interruptAt clock].
  intros H. apply andb_prop in H as [-> H]. cbn [andb].
  destruct ia as [t|]; [|discriminate].
  apply Nat.leb_le in H. apply Nat.leb_le. lia.
Qed.

(** X21.  A fiber that is interruptible and already interrupted when it
    comes to the gate issues nothing: through either acquirer the outcome
    is the interruption, the statement is not called, and neither the
    engine, [dbRef] nor a permit has changed. *)
Theorem interrupted_fiber_issues_nothing {A : Type}
  (s : SemRef) (conn : option (SqliteConnection E))
  (statement : SqliteConnection E -> JS (HostState E) (Eff (HostState E) A))
  (env : Env) (w : World (HostState E)) :
  interruptible env && interrupted w = true ->
  withStatement (acquirer s conn) statement env w = (Failure Interrupt, w) /\
  withTransaction (transactionAcquirer s conn) statement env w =
  (Failure Interrupt, set_scopes (scopes w ++ [ScopeClosed]) (tick w)).
Proof.
  intros Hp. split.
  - unfold withStatement, flatMapJS.
    rewrite (acquirer_pending s conn env w Hp). reflexivity.
  - unfold withTransaction. rewrite scoped_unfold.
    unfold withStatement, flatMapJS.
    rewrite (transactionAcquirer_pending E s conn _ _
               (pending_after_tick env w _ _ Hp)).
    cbn [exitKind].
    rewrite (scopeClose_empty_scope (scopes w) _ env
               (set_scopes (scopes w ++ [ScopeOpen []]) (tick w)))
      by reflexivity.
    destruct w; reflexivity.
Qed.

End WithEngine.


(** ** Concrete runs *)

Local Open Scope string_scope.

Lemma valuesOf_missing_column_is_undefined_witness :
  nth_error usersRows 2 = Some [("id", VNumber 3)] /\
  nth_error (keys [("id", VNumber 1); ("name", VString "ada")]) 1 =
  Some "name" /\
  ~ In "name" (keys [("id", VNumber 3)]) /\
  ~ In "name" objectPrototypeNames /\
  exists tuple,
    nth_error (valuesOf usersRows) 2 = Some tuple /\
    nth_error tuple 1 = Some VUndefined.
Proof.
  assert (H0 : nth_error usersRows 2 = Some [("id", VNumber 3)])
    by reflexivity.
  assert (H1 : nth_error (keys [("id", VNumber 1); ("name", VString "ada")]) 1
               = Some "name") by reflexivity.
  assert (H2 : ~ In "name" (keys [("id", VNumber 3)])).
  { cbn. intros [H|[]]. discriminate H. }
  assert (H3 : ~ In "name" objectPrototypeNames).
  { cbn. intros H.
    repeat (destruct H as [H|H]; [discriminate H|]). exact H. }
  split; [exact H0|]. split; [exact H1|]. split; [exact H2|].
  split; [exact H3|].
  exact (valuesOf_missing_column_is_undefined
           [("id", VNumber 1); ("name", VString "ada")]
           [[("name", VString "bob"); ("id", VNumber 2); ("age", VNumber 7)];
            [("id", VNumber 3)]]
           2 1 [("id", VNumber 3)] "name" H0 H1 H2 H3).
Defined.

Lemma valuesOf_tuples_have_first_row_width_witness :
  In [VNumber 2; VString "bob"] (valuesOf usersRows) /\
  List.length [VNumber 2; VString "bob"] =
  List.length [("id", VNumber 1); ("name", VString "ada")].
Proof.
  assert (H : In [VNumber 2; VString "bob"] (valuesOf usersRows)).
  { right. left. reflexivity. }
  split; [exact H|].
  exact (valuesOf_tuples_have_first_row_width
           [("id", VNumber 1); ("name", VString "ada")]
           [[("name", VString "bob"); ("id", VNumber 2); ("age", VNumber 7)];
            [("id", VNumber 3)]]
           [VNumber 2; VString "bob"] H).
Defined.

Lemma valuesOf_uniform_rows_witness :
  NoDup (keys [("id", VNumber 1); ("name", VString "ada")]) /\
  Forall (fun row => keys row = keys [("id", VNumber 1); ("name", VString "ada")])
    [[("id", VNumber 2); ("name", VNull)]] /\
  valuesOf [[("id", VNumber 1); ("name", VString "ada")];
            [("id", VNumber 2); ("name", VNull)]] =
  [[VNumber 1; VString "ada"]; [VNumber 2; VNull]].
Proof.
  assert (H0 : NoDup (keys [("id", VNumber 1); ("name", VString "ada")])).
  { cbn. constructor.
    - intros [H|[]]. discriminate H.
    - constructor; [intros []|constructor]. }
  assert (H1 : Forall
                 (fun row =>
                    keys row = keys [("id", VNumber 1); ("name", VString "ada")])
                 [[("id", VNumber 2); ("name", VNull)]]).
  { constructor; [reflexivity|constructor]. }
  split; [exact H0|]. split; [exact H1|].
  exact (valuesOf_uniform_rows
           [("id", VNumber 1); ("name", VString "ada")]
           [[("id", VNumber 2); ("name", VNull)]] H0 H1).
Defined.

Lemma statement_through_acquirer_touches_engine_only_witness :
  (forall c : SqliteConnection scripted,
     engineOnlyCall (execute c "SELECT * FROM users" [] None)) /\
  exists eng c,
    snd (withStatement (acquirer 0 connection0)
           (fun c => execute c "SELECT * FROM users" [] None) env0 madeWorld) =
    set_host (set_engine eng (host madeWorld)) (set_clock c madeWorld).
Proof.
  assert (H : forall c : SqliteConnection scripted,
            engineOnlyCall (execute c "SELECT * FROM users" [] None)).
  { intros c. apply execute_engineOnlyCall. }
  split; [exact H|].
  exact (statement_through_acquirer_touches_engine_only scripted
           0 connection0
           (fun c => execute c "SELECT * FROM users" [] None)
           env0 madeWorld H).
Defined.

Lemma transaction_conserves_permits_witness :
  engineOnlyCall
    (executeStream (mkConnection scripted "app.db") "SELECT 1" [] None) /\
  (exists e h',
     executeStream (mkConnection scripted "app.db") "SELECT 1" [] None
       (host madeWorld) = (Return e, h')) /\
  fst (withTransaction (transactionAcquirer 0 connection0)
         (fun c => executeStream c "SELECT 1" [] None) env0 madeWorld) =
  Failure (Die (RuntimeException "executeStream not implemented")) /\
  sems (snd (withTransaction (transactionAcquirer 0 connection0)
               (fun c => executeStream c "SELECT 1" [] None) env0 madeWorld)) =
  sems madeWorld.
Proof.
  assert (H : engineOnlyCall
                (executeStream (mkConnection scripted "app.db")
                   "SELECT 1" [] None)).
  { apply executeStream_engineOnlyCall. }
  assert (Hr : exists e h',
             executeStream (mkConnection scripted "app.db") "SELECT 1" [] None
               (host madeWorld) = (Return e, h')).
  { eexists. eexists. reflexivity. }
  split; [exact H|]. split; [exact Hr|]. split; [reflexivity|].
  exact (proj1 (transaction_conserves_permits scripted 0
                  (mkConnection scripted "app.db")
                  (fun c => executeStream c "SELECT 1" [] None)
                  env0 madeWorld H Hr)).
Defined.


Lemma gate_is_not_reentrant_witness :
  scopeState (currentScope env0) madeWorld =
  ScopeOpen [FinSync (closeFinalizer (E:=scripted) "app.db")] /\
  free 0 madeWorld = 1 /\
  interruptAt madeWorld = None /\
  exists w1,
    transactionAcquirer 0 connection0 env0 madeWorld = (Success connection0, w1) /\
    acquirer 0 connection0 env0 w1 = (Suspended, w1).
Proof.
  assert (H0 : scopeState (currentScope env0) madeWorld =
               ScopeOpen [FinSync (closeFinalizer (E:=scripted) "app.db")])
    by reflexivity.
  assert (H1 : free 0 madeWorld = 1) by reflexivity.
  assert (H2 : interruptAt madeWorld = None) by reflexivity.
  split; [exact H0|]. split; [exact H1|]. split; [exact H2|].
  destruct (gate_is_not_reentrant scripted 0 connection0 env0 madeWorld _
              H0 H1 H2) as (w1 & Ha & Hb).
  exists w1. split; [exact Ha|]. exact (proj1 (Hb connection0 env0)).
Defined.

Lemma answered_statement_returns_rows_witness :
  getAllSync scripted "app.db" "SELECT * FROM users" []
    (engine (host madeWorld)) =
  (Return usersRows,
   [CallOpen "app.db"; CallQuery "app.db" "SELECT * FROM users" []]) /\
  1 <= free 0 madeWorld /\
  interruptAt madeWorld = None /\
  fst (withStatement (acquirer 0 connection0)
         (fun c => execute c "SELECT * FROM users" [] (Some (@List.tl Row)))
         env0 madeWorld) =
  Success (List.tl usersRows).
Proof.
  assert (H0 : getAllSync scripted (db (mkConnection scripted "app.db"))
                 "SELECT * FROM users" [] (engine (host madeWorld)) =
               (Return usersRows,
                [CallOpen "app.db";
                 CallQuery "app.db" "SELECT * FROM users" []]))
    by reflexivity.
  assert (H1 : 1 <= free 0 madeWorld) by (vm_compute; lia).
  assert (H2 : interruptAt madeWorld = None) by reflexivity.
  split; [exact H0|]. split; [exact H1|]. split; [exact H2|].
  exact (f_equal fst
           (proj1 (answered_statement_returns_rows scripted
                     (mkConnection scripted "app.db") "SELECT * FROM users" []
                     (Some (@List.tl Row)) usersRows _ 0 env0 madeWorld
                     H0 H1 H2))).
Defined.

Lemma make_opens_database_and_builds_gate_witness :
  truthy (dbRef (host world0)) = false /\
  interruptAt world0 = None /\
  scopeState (currentScope env0) world0 = ScopeOpen [] /\
  openDatabaseSync scripted (database config0) (engine (host world0)) =
  (Return "app.db", [CallOpen "app.db"]) /\
  exists w',
    make config0 env0 world0 =
    (Success (mkMakeOptions (acquirer 0 connection0)
                (transactionAcquirer 0 connection0)), w') /\
    sems w' = [1].
Proof.
  assert (H0 : truthy (dbRef (host world0)) = false) by reflexivity.
  assert (H1 : interruptAt world0 = None) by reflexivity.
  assert (H2 : scopeState (currentScope env0) world0 = ScopeOpen [])
    by reflexivity.
  assert (H3 : openDatabaseSync scripted (database config0)
                 (engine (host world0)) =
               (Return "app.db", [CallOpen "app.db"])) by reflexivity.
  split; [exact H0|]. split; [exact H1|]. split; [exact H2|].
  split; [exact H3|].
  destruct (make_opens_database_and_builds_gate scripted config0 env0 world0
              [] "app.db" [CallOpen "app.db"] H0 H1 H2 H3)
    as (w' & Ha & Hb & _).
  exists w'. split; [exact Ha|exact Hb].
Defined.

Lemma failed_open_is_never_retried_witness :
  truthy (dbRef (host unopenedWorld)) = false /\
  interruptible env0 && interrupted unopenedWorld = false /\
  openDatabaseSync unopenable (database config0) (engine (host unopenedWorld)) =
  (Throw "SQLITE_CANTOPEN", [CallOpen "app.db"]) /\
  makeConnection config0 env0 unopenedWorld =
  (Failure (Die (Thrown "SQLITE_CANTOPEN")),
   set_host (mkHost unopenable (Some true) [CallOpen "app.db"])
     (tick unopenedWorld)) /\
  makeConnection config0 env0
    (set_host (mkHost unopenable (Some true) [CallOpen "app.db"])
       (tick unopenedWorld)) =
  (Success None,
   set_clock 3
     (set_host (mkHost unopenable (Some true) [CallOpen "app.db"])
        (tick unopenedWorld))).
Proof.
  assert (H0 : truthy (dbRef (host unopenedWorld)) = false) by reflexivity.
  assert (H1 : interruptible env0 && interrupted unopenedWorld = false)
    by reflexivity.
  assert (H2 : openDatabaseSync unopenable (database config0)
                 (engine (host unopenedWorld)) =
               (Throw "SQLITE_CANTOPEN", [CallOpen "app.db"]))
    by reflexivity.
  split; [exact H0|]. split; [exact H1|]. split; [exact H2|].
  destruct (failed_open_is_never_retried unopenable config0 env0 unopenedWorld
              "SQLITE_CANTOPEN" [CallOpen "app.db"] H0 H1 H2) as (Ha & Hb).
  split; [exact Ha|].
  exact (Hb config0 env0
           (set_host (mkHost unopenable (Some true) [CallOpen "app.db"])
              (tick unopenedWorld)) eq_refl eq_refl).
Defined.

Lemma closing_the_scope_closes_the_opened_database_witness :
  truthy (dbRef (host world0)) = false /\
  interruptAt world0 = None /\
  scopeState (currentScope env0) world0 = ScopeOpen [] /\
  openDatabaseSync scripted (database config0) (engine (host world0)) =
  (Return "app.db", [CallOpen "app.db"]) /\
  exists w1 w2,
    makeConnection config0 env0 world0 = (Success connection0, w1) /\
    scopeClose (currentScope env0) ExitSuccess env0 w1 = (Success tt, w2) /\
    host w2 =
    mkHost scripted (Some false) [CallOpen "app.db"; CallClose "app.db"].
Proof.
  assert (H0 : truthy (dbRef (host world0)) = false) by reflexivity.
  assert (H1 : interruptAt world0 = None) by reflexivity.
  assert (H2 : scopeState (currentScope env0) world0 = ScopeOpen [])
    by reflexivity.
  assert (H3 : openDatabaseSync scripted (database config0)
                 (engine (host world0)) =
               (Return "app.db", [CallOpen "app.db"])) by reflexivity.
  split; [exact H0|]. split; [exact H1|]. split; [exact H2|].
  split; [exact H3|].
  destruct (closing_the_scope_closes_the_opened_database scripted config0 env0
              world0 [] "app.db" [CallOpen "app.db"] H0 H1 H2 H3)
    as (w1 & Ha & Hb).
  destruct (Hb ExitSuccess env0) as (w2 & Hc & Hd & _).
  exists w1, w2. split; [exact Ha|]. split; [exact Hc|exact Hd].
Defined.

Lemma interrupted_fiber_issues_nothing_witness :
  interruptible env0 && interrupted (snd (acquirer 0 connection0 env0 transactionWorld))
  = true /\
  withStatement (acquirer 0 connection0)
    (fun c => execute c "SELECT * FROM users" [] None) env0
    (snd (acquirer 0 connection0 env0 transactionWorld)) =
  (Failure Interrupt, snd (acquirer 0 connection0 env0 transactionWorld)).
Proof.
  assert (H : interruptible env0 &&
              interrupted (snd (acquirer 0 connection0 env0 transactionWorld))
              = true) by reflexivity.
  split; [exact H|].
  exact (proj1 (interrupted_fiber_issues_nothing scripted 0 connection0
                  (fun c => execute c "SELECT * FROM users" [] None) env0
                  (snd (acquirer 0 connection0 env0 transactionWorld)) H)).
Defined.

End SqliteClientMoreFacts.
